(** * Login form component: a shallow embedding of
      [src/app/auth/login/login.component.ts]

    The component owns a reactive form group with two controls ([email] and
    [password]), three derived streams ([buttonDisabled$], [emailMessage$],
    [passwordMessage$]) and the [onSubmit] action, which calls the
    authentication service and reacts to its response with a snack bar and a
    navigation.

    The embedding has four layers:
    - [Js]: the JavaScript values whose truthiness the component tests;
    - [Rx]: the two stream operators the component pipes through;
    - the forms library as far as the component reads it (statuses,
      validation errors, the built-in validators, controls and the group);
    - the component itself, with its side effects recorded in a trace. *)

From stdpp Require Import base option list strings gmap.

Local Open Scope string_scope.
Local Open Scope list_scope.

(** ** JavaScript values and truthiness *)

Module Js.

(** The values a field typed [unknown] or [any] can hold.  Numbers are kept
    as far as truthiness can tell them apart: zero, not-a-number, and the
    rest.  An object carries its own properties. *)
#[warnings="-register-all"]
Inductive Value : Type :=
| Undefined
| Null
| Bool (b : bool)
| Number (n : Z)
| NaN
| String (s : string)
| Object (properties : list (string * Value)).

(** The abstract operation ToBoolean, which [if (x)] applies to [x]. *)
Definition ToBoolean (v : Value) : bool :=
  match v with
  | Undefined | Null | NaN => false
  | Bool b => b
  | Number n => negb (n =? 0)%Z
  | String s => negb (String.eqb s "")
  | Object _ => true
  end.

(** [o.key] on an object held as a finite map: an absent key reads as
    [undefined]. *)
Definition get (o : gmap string Value) (key : string) : Value :=
  default Undefined (o !! key).

(** [o?.key] on a value that may be [null]. *)
Definition get_opt (o : option (gmap string Value)) (key : string) : Value :=
  match o with
  | Some o => get o key
  | None => Undefined
  end.

End Js.

(** ** Streams *)

Module Rx.

(** A stream is observed through the values it has emitted so far, oldest
    first. *)
Abbreviation Observable A := (list A).

(** [source.pipe(map(project))] *)
Definition map {A B : Type} (project : A → B) (source : Observable A)
  : Observable B :=
  project <$> source.

(** [source.pipe(startWith(x))] *)
Definition startWith {A : Type} (x : A) (source : Observable A)
  : Observable A :=
  x :: source.

End Rx.

(** ** The forms library, as the component uses it *)

(** The four status strings of a control: ['VALID'], ['INVALID'], ['PENDING']
    and ['DISABLED']. *)
Inductive FormStatus : Type := VALID | INVALID | PENDING | DISABLED.

Global Instance FormStatus_eq_dec : EqDecision FormStatus.
Proof. solve_decision. Defined.

(** An errors object maps the name of each failed check to its details. *)
Abbreviation ValidationErrors := (gmap string Js.Value).

(** A validator inspects the value of a control and yields [null] (here
    [None]) or an errors object. *)
Definition ValidatorFn : Type := string → option ValidationErrors.

Module Validators.

(** [value == null || value.length === 0]; control values are strings
    here, whose length is counted in characters. *)
Definition isEmptyInputValue (value : string) : bool :=
  bool_decide (String.length value = 0).

Definition required : ValidatorFn := λ value,
  if isEmptyInputValue value
  then Some {[ "required" := Js.Bool true ]}
  else None.

Definition minLength (minLength : nat) : ValidatorFn := λ value,
  if isEmptyInputValue value then None
  else if bool_decide (String.length value < minLength)
  then Some {[ "minlength" :=
                 Js.Object
                   [ ("requiredLength", Js.Number (Z.of_nat minLength));
                     ("actualLength",
                      Js.Number (Z.of_nat (String.length value))) ] ]}
  else None.

Section Email.

(** The regular expression of the e-mail check belongs to the forms library;
    the component is verified for every such test. *)
Variable EMAIL_REGEXP : string → bool.

(** Empty values are not checked, so that a control may be optional. *)
Definition email : ValidatorFn := λ value,
  if isEmptyInputValue value then None
  else if EMAIL_REGEXP value then None
  else Some {[ "email" := Js.Bool true ]}.

End Email.

(** Merging the results of several validators: a later validator
    overwrites an earlier one on a shared key, and an empty result is
    [null]. *)
Definition mergeErrors (arrayOfErrors : list (option ValidationErrors))
  : option ValidationErrors :=
  let res : ValidationErrors :=
    foldl (λ (res : ValidationErrors) errors,
             match errors with
             | Some errors => errors ∪ res
             | None => res
             end) ∅ arrayOfErrors in
  if bool_decide (size res = 0) then None else Some res.

(** The validator of a control built with an array of validators. *)
Definition compose (validators : list ValidatorFn) : ValidatorFn := λ value,
  mergeErrors ((λ v : ValidatorFn, v value) <$> validators).

End Validators.

Module FormControl.

Record t : Type := mk {
  value : string;
  errors : option ValidationErrors;
  status : FormStatus;
  dirty : bool;
  touched : bool
}.

(** Status of a control without asynchronous validators. *)
Definition calculateStatus (disabled : bool)
    (errors : option ValidationErrors) : FormStatus :=
  if disabled then DISABLED
  else match errors with Some _ => INVALID | None => VALID end.

(** [new FormControl(formState, validators)] *)
Definition new (formState : string) (validator : ValidatorFn) : t :=
  let errors := validator formState in
  {| value := formState;
     errors := errors;
     status := calculateStatus false errors;
     dirty := false;
     touched := false |}.

Definition disabled (c : t) : bool := bool_decide (status c = DISABLED).

(** Re-runs the validator and recomputes the status; a disabled control
    is left alone. *)
Definition updateValueAndValidity (validator : ValidatorFn) (c : t) : t :=
  if disabled c then c
  else
    let errors := validator (value c) in
    {| value := value c;
       errors := errors;
       status := calculateStatus false errors;
       dirty := dirty c;
       touched := touched c |}.

Definition setValue (validator : ValidatorFn) (v : string) (c : t) : t :=
  updateValueAndValidity validator
    {| value := v; errors := errors c; status := status c;
       dirty := dirty c; touched := touched c |}.

Definition markAsDirty (c : t) : t :=
  {| value := value c; errors := errors c; status := status c;
     dirty := true; touched := touched c |}.

Definition markAsTouched (c : t) : t :=
  {| value := value c; errors := errors c; status := status c;
     dirty := dirty c; touched := true |}.

(** What [updateValueAndValidity] establishes: the errors held are those
    of the value held. *)
Definition validated (validator : ValidatorFn) (c : t) : Prop :=
  errors c = validator (value c).

(** An enabled control with synchronous validators only: validated, and
    its status follows from its errors. *)
Definition synchronous (validator : ValidatorFn) (c : t) : Prop :=
  validated validator c ∧ status c = calculateStatus false (errors c).

End FormControl.

Module FormGroup.

(** The two controls the component declares. *)
Record Controls : Type := {
  email : FormControl.t;
  password : FormControl.t
}.

(** The group caches its aggregate value (an object keyed by control name)
    and its aggregate status. *)
Record t : Type := mk {
  controls : Controls;
  value : gmap string string;
  status : FormStatus
}.

Definition named (cs : Controls) : list (string * FormControl.t) :=
  [ ("email", email cs); ("password", password cs) ].

Definition allControlsDisabled (cs : Controls) : bool :=
  forallb (λ nc, FormControl.disabled nc.2) (named cs).

Definition anyControlsHaveStatus (s : FormStatus) (cs : Controls) : bool :=
  existsb (λ nc, bool_decide (FormControl.status nc.2 = s)) (named cs).

(** The aggregate value holds the enabled controls, or every control when
    the whole group is disabled. *)
Definition reduceValue (groupDisabled : bool) (cs : Controls)
  : gmap string string :=
  foldl (λ (acc : gmap string string) nc,
           if negb (FormControl.disabled nc.2) || groupDisabled
           then <[ nc.1 := FormControl.value nc.2 ]> acc
           else acc) ∅ (named cs).

(** The group has no validator of its own. *)
Definition calculateStatus (cs : Controls) : FormStatus :=
  if allControlsDisabled cs then DISABLED
  else if anyControlsHaveStatus PENDING cs then PENDING
  else if anyControlsHaveStatus INVALID cs then INVALID
  else VALID.

(** Recomputes the cached value and status from the controls; it runs when
    the group is built and after every update of one of its controls. *)
Definition updateValueAndValidity (cs : Controls) : t :=
  {| controls := cs;
     value := reduceValue (allControlsDisabled cs) cs;
     status := calculateStatus cs |}.

(** [new FormGroup(controls)] *)
Definition new (cs : Controls) : t := updateValueAndValidity cs.

(** The getter [valid]: [status === 'VALID']. *)
Definition valid (fg : t) : bool := bool_decide (status fg = VALID).

End FormGroup.

(** ** The collaborators of the component *)

(** Modelled from the spec: the interface [AuthUser] of
    [../model/auth-user.interface], the credentials
    [{ email: string, password: string }].  At run time the object handed
    to the service is the aggregate value of the form group. *)
Abbreviation AuthUser := (gmap string string).

Module AuthResponse.

(** Modelled from the spec: the interface [AuthResponse] of
    [../model/auth-response.interface],
    [{ token?: string, error?: unknown }].  An absent [token] is [None], an
    absent [error] is [undefined]. *)
Record t : Type := mk {
  token : option string;
  error : Js.Value
}.

(** Truthiness of [response.token]: present and not the empty string. *)
Definition token_truthy (response : t) : bool :=
  match token response with
  | Some s => Js.ToBoolean (Js.String s)
  | None => false
  end.

End AuthResponse.

(** The placements ['top'] and ['bottom']. *)
Inductive MatSnackBarVerticalPosition : Type := v_top | v_bottom.

(** The placements ['start'], ['center'], ['end'], ['left'] and ['right']. *)
Inductive MatSnackBarHorizontalPosition : Type :=
  h_start | h_center | h_end | h_left | h_right.

(** The options object given to [snackBar.open]; a key left out is [None].
    The duration is in milliseconds. *)
Record MatSnackBarConfig : Type := {
  duration : option Z;
  verticalPosition : option MatSnackBarVerticalPosition;
  horizontalPosition : option MatSnackBarHorizontalPosition
}.

(** The calls the component makes on its three injected services. *)
Inductive Effect : Type :=
| loginUser_call (user : AuthUser)
| snackBar_open (message : string) (action : option string)
    (config : MatSnackBarConfig)
| router_navigateByUrl (url : string).

(** The three kinds of call in a trace, each in order of occurrence. *)
Definition loginUser_calls (trace : list Effect) : list AuthUser :=
  omap (λ e, match e with loginUser_call user => Some user | _ => None end)
       trace.

Definition notifications (trace : list Effect)
  : list (string * MatSnackBarConfig) :=
  omap (λ e, match e with
             | snackBar_open message _ config => Some (message, config)
             | _ => None
             end) trace.

Definition navigations (trace : list Effect) : list string :=
  omap (λ e, match e with router_navigateByUrl url => Some url | _ => None end)
       trace.

(** ** The component *)

Record LoginComponent : Type := {
  formGroup : FormGroup.t
}.

(** A method of the component reads and may replace the component state,
    and appends the service calls it makes to a trace. *)
Definition Action (A : Type) : Type :=
  LoginComponent → A * LoginComponent * list Effect.

Global Instance Action_ret : MRet Action := λ A a this, (a, this, []).

Global Instance Action_bind : MBind Action := λ A B k m this,
  let '(a, this1, trace1) := m this in
  let '(b, this2, trace2) := k a this1 in
  (b, this2, trace1 ++ trace2).

Definition this_formGroup : Action FormGroup.t :=
  λ this, (formGroup this, this, []).

Definition perform (e : Effect) : Action unit := λ this, (tt, this, [e]).

(** [source.subscribe(next)]: runs [next] on every value of the stream, in
    order.  The values arrive after the subscribing call has returned; the
    trace keeps the service calls in the order they are made. *)
Fixpoint subscribe {A : Type} (source : Rx.Observable A)
    (next : A → Action unit) : Action unit :=
  match source with
  | [] => mret tt
  | x :: source => next x;; subscribe source next
  end.

Definition state_after {A : Type} (r : A * LoginComponent * list Effect)
  : LoginComponent := r.1.2.

Definition trace_of {A : Type} (r : A * LoginComponent * list Effect)
  : list Effect := r.2.

Section Component.

(** The e-mail test of the forms library. *)
Variable EMAIL_REGEXP : string → bool.

(** Modelled from the spec: [AuthService.loginUser] of [../auth.service],
    which takes the credentials and returns the stream of responses of the
    authentication endpoint.  The component is verified for every such
    service. *)
Variable loginUser : AuthUser → Rx.Observable AuthResponse.t.

(** *** The form group declared by the component *)

Definition emailValidator : ValidatorFn :=
  Validators.compose [ Validators.required; Validators.email EMAIL_REGEXP ].

Definition passwordValidator : ValidatorFn :=
  Validators.compose [ Validators.required; Validators.minLength 8 ].

Definition formGroup_initial : FormGroup.t :=
  FormGroup.new
    {| FormGroup.email := FormControl.new "" emailValidator;
       FormGroup.password := FormControl.new "" passwordValidator |}.

Definition LoginComponent_new : LoginComponent :=
  {| formGroup := formGroup_initial |}.

(** *** What the user does to the form

    Typing into a field marks its control dirty, stores the new value,
    re-validates the control and then the group, which emits on
    [valueChanges] and on [statusChanges].  Leaving a field marks its
    control touched and emits nothing. *)
Inductive FormEvent : Type :=
| input_email (v : string)
| input_password (v : string)
| blur_email
| blur_password.

(** The view-to-model update of the forms library. *)
Definition updateControl (validator : ValidatorFn) (v : string)
    (c : FormControl.t) : FormControl.t :=
  FormControl.setValue validator v (FormControl.markAsDirty c).

Definition form_step (e : FormEvent) (fg : FormGroup.t) : FormGroup.t :=
  let cs := FormGroup.controls fg in
  match e with
  | input_email v =>
      FormGroup.updateValueAndValidity
        {| FormGroup.email := updateControl emailValidator v (FormGroup.email cs);
           FormGroup.password := FormGroup.password cs |}
  | input_password v =>
      FormGroup.updateValueAndValidity
        {| FormGroup.email := FormGroup.email cs;
           FormGroup.password :=
             updateControl passwordValidator v (FormGroup.password cs) |}
  | blur_email =>
      {| FormGroup.controls :=
           {| FormGroup.email := FormControl.markAsTouched (FormGroup.email cs);
              FormGroup.password := FormGroup.password cs |};
         FormGroup.value := FormGroup.value fg;
         FormGroup.status := FormGroup.status fg |}
  | blur_password =>
      {| FormGroup.controls :=
           {| FormGroup.email := FormGroup.email cs;
              FormGroup.password :=
                FormControl.markAsTouched (FormGroup.password cs) |};
         FormGroup.value := FormGroup.value fg;
         FormGroup.status := FormGroup.status fg |}
  end.

(** Does the group emit on [valueChanges] and [statusChanges]? *)
Definition emits (e : FormEvent) : bool :=
  match e with
  | input_email _ | input_password _ => true
  | blur_email | blur_password => false
  end.

(** The form after a sequence of events. *)
Definition form_after (events : list FormEvent) (fg : FormGroup.t)
  : FormGroup.t :=
  foldl (λ fg e, form_step e fg) fg events.

(** The states of the form at each emission of the group, oldest first. *)
Fixpoint emissions (events : list FormEvent) (fg : FormGroup.t)
  : Rx.Observable FormGroup.t :=
  match events with
  | [] => []
  | e :: events =>
      let fg' := form_step e fg in
      if emits e then fg' :: emissions events fg' else emissions events fg'
  end.

(** [formGroup.statusChanges] emits the status of the group. *)
Definition statusChanges (events : list FormEvent) (fg : FormGroup.t)
  : Rx.Observable FormStatus :=
  FormGroup.status <$> emissions events fg.

(** [formGroup.valueChanges] emits the value of the group; each emission is
    kept with the component as it is when the emission is delivered, since
    the subscribers below read [this.formGroup]. *)
Definition valueChanges (events : list FormEvent) (fg : FormGroup.t)
  : Rx.Observable (LoginComponent * AuthUser) :=
  (λ fg', ({| formGroup := fg' |}, FormGroup.value fg')) <$> emissions events fg.

(** The invariant of the form as the user drives it: both controls are
    enabled and validated, and the caches of the group are up to date. *)
Definition form_inv (fg : FormGroup.t) : Prop :=
  FormControl.synchronous emailValidator
    (FormGroup.email (FormGroup.controls fg)) ∧
  FormControl.synchronous passwordValidator
    (FormGroup.password (FormGroup.controls fg)) ∧
  fg = FormGroup.updateValueAndValidity (FormGroup.controls fg).

(** *** The derived streams *)

(** [buttonDisabled$], over the emissions of [formGroup.statusChanges]. *)
Definition buttonDisabled_S (statusChanges : Rx.Observable FormStatus)
  : Rx.Observable bool :=
  Rx.startWith true
    (Rx.map (λ status, bool_decide (status = INVALID)) statusChanges).

(** The function mapped over [valueChanges] by [emailMessage$]. *)
Definition emailMessage (this : LoginComponent) (value : AuthUser) : string :=
  let emailErrors :=
    FormControl.errors (FormGroup.email (FormGroup.controls (formGroup this))) in
  match emailErrors with
  | Some _ =>
      if Js.ToBoolean (Js.get_opt emailErrors "required")
      then "This filed is required"
      else if Js.ToBoolean (Js.get_opt emailErrors "email")
      then "Wrong email format"
      else ""
  | None => ""
  end.

(** [emailMessage$] *)
Definition emailMessage_S
    (valueChanges : Rx.Observable (LoginComponent * AuthUser))
  : Rx.Observable string :=
  Rx.map (λ tv, emailMessage tv.1 tv.2) valueChanges.

(** The function mapped over [valueChanges] by [passwordMessage$]. *)
Definition passwordMessage (this : LoginComponent) (value : AuthUser)
  : string :=
  let password := FormGroup.password (FormGroup.controls (formGroup this)) in
  let passwordErrors := FormControl.errors password in
  match passwordErrors with
  | Some errors =>
      if FormControl.dirty password then
        if Js.ToBoolean (Js.get errors "required")
        then "Password is required"
        else if Js.ToBoolean (Js.get errors "minlength")
        then "Password should have at least 8 characters"
        else ""
      else ""
  | None => ""
  end.

(** [passwordMessage$] *)
Definition passwordMessage_S
    (valueChanges : Rx.Observable (LoginComponent * AuthUser))
  : Rx.Observable string :=
  Rx.map (λ tv, passwordMessage tv.1 tv.2) valueChanges.

(** *** Submission *)

(** [this.authService.loginUser(user)], recorded in the trace. *)
Definition authService_loginUser (user : AuthUser)
  : Action (Rx.Observable AuthResponse.t) :=
  λ this, (loginUser user, this, [loginUser_call user]).

(** The function subscribed to the stream of responses. *)
Definition onResponse (response : AuthResponse.t) : Action unit :=
  if Js.ToBoolean (AuthResponse.error response) then
    perform (snackBar_open "Login failed" None
               {| duration := Some 1000%Z;
                  verticalPosition := None;
                  horizontalPosition := None |})
  else if AuthResponse.token_truthy response then
    perform (snackBar_open "Logged in!" None
               {| duration := Some 1000%Z;
                  verticalPosition := Some v_top;
                  horizontalPosition := Some h_right |});;
    perform (router_navigateByUrl "/settings")
  else mret tt.

Definition onSubmit (event : Js.Value) : Action unit :=
  formGroup ← this_formGroup;
  if FormGroup.valid formGroup then
    let user : AuthUser := FormGroup.value formGroup in
    responses ← authService_loginUser user;
    subscribe responses onResponse
  else mret tt.

(** [onSubmit] called once per element of [events], in order. *)
Fixpoint onSubmit_each (events : list Js.Value) : Action unit :=
  match events with
  | [] => mret tt
  | event :: events => onSubmit event;; onSubmit_each events
  end.

End Component.

(** ** Sample collaborators and states *)

(** A crude e-mail test: some character, then an at sign. *)
Definition sample_EMAIL_REGEXP (s : string) : bool :=
  match String.index 0 "@" s with
  | Some (S _) => true
  | _ => false
  end.

(** Services that answer every request with one fixed response. *)
Definition service_answering (response : AuthResponse.t)
  : AuthUser → Rx.Observable AuthResponse.t :=
  λ _, [response].

Definition response_bad_credentials : AuthResponse.t :=
  AuthResponse.mk None (Js.String "bad credentials").

Definition response_token : AuthResponse.t :=
  AuthResponse.mk (Some "abc123") Js.Undefined.

Definition response_empty : AuthResponse.t :=
  AuthResponse.mk None Js.Undefined.

Definition response_token_and_error : AuthResponse.t :=
  AuthResponse.mk (Some "abc123") (Js.String "bad credentials").

(** The form after the user has typed the credentials of scenario A. *)
Definition formGroup_scenario_A (EMAIL_REGEXP : string → bool)
  : FormGroup.t :=
  form_after EMAIL_REGEXP
    [ input_email "a@b.com"; input_password "password1" ]
    (formGroup_initial EMAIL_REGEXP).

Definition config_login_failed : MatSnackBarConfig :=
  {| duration := Some 1000%Z;
     verticalPosition := None;
     horizontalPosition := None |}.

Definition config_logged_in : MatSnackBarConfig :=
  {| duration := Some 1000%Z;
     verticalPosition := Some v_top;
     horizontalPosition := Some h_right |}.

(** ** Properties of the forms layer *)

Section Forms.

Variable EMAIL_REGEXP : string → bool.

(** *** What the validators of the two controls return *)

Lemma isEmptyInputValue_nonempty (v : string) :
  v ≠ "" → Validators.isEmptyInputValue v = false.
Proof.
  intros Hne. unfold Validators.isEmptyInputValue.
  apply bool_decide_eq_false_2. destruct v; [done | cbn; lia].
Qed.

Lemma mergeErrors_single_l (k : string) (x : Js.Value) :
  Validators.mergeErrors [Some {[ k := x ]}; None] = Some {[ k := x ]}.
Proof.
  unfold Validators.mergeErrors. cbn [foldl].
  rewrite (right_id_L ∅ (∪)), map_size_singleton. reflexivity.
Qed.

Lemma mergeErrors_single_r (k : string) (x : Js.Value) :
  Validators.mergeErrors [None; Some {[ k := x ]}] = Some {[ k := x ]}.
Proof.
  unfold Validators.mergeErrors. cbn [foldl].
  rewrite (right_id_L ∅ (∪)), map_size_singleton. reflexivity.
Qed.

Lemma emailValidator_empty :
  emailValidator EMAIL_REGEXP "" = Some {[ "required" := Js.Bool true ]}.
Proof. apply mergeErrors_single_l. Qed.

Lemma emailValidator_nonempty (v : string) :
  v ≠ "" →
  emailValidator EMAIL_REGEXP v
  = if EMAIL_REGEXP v then None else Some {[ "email" := Js.Bool true ]}.
Proof.
  intros Hne. unfold emailValidator, Validators.compose.
  cbn [fmap list_fmap]. unfold Validators.required, Validators.email.
  rewrite (isEmptyInputValue_nonempty v Hne).
  destruct (EMAIL_REGEXP v); [reflexivity | apply mergeErrors_single_r].
Qed.

Lemma passwordValidator_empty :
  passwordValidator "" = Some {[ "required" := Js.Bool true ]}.
Proof. apply mergeErrors_single_l. Qed.

Lemma passwordValidator_nonempty (v : string) :
  v ≠ "" →
  passwordValidator v
  = if bool_decide (String.length v < 8)
    then Some {[ "minlength" :=
                   Js.Object
                     [ ("requiredLength", Js.Number 8);
                       ("actualLength",
                        Js.Number (Z.of_nat (String.length v))) ] ]}
    else None.
Proof.
  intros Hne. unfold passwordValidator, Validators.compose.
  cbn [fmap list_fmap]. unfold Validators.required, Validators.minLength.
  rewrite (isEmptyInputValue_nonempty v Hne).
  destruct (bool_decide _); [apply mergeErrors_single_r | reflexivity].
Qed.

(** *** The invariant of the form under user events *)

Lemma calculateStatus_enabled (errors : option ValidationErrors) :
  FormControl.calculateStatus false errors ≠ DISABLED ∧
  FormControl.calculateStatus false errors ≠ PENDING.
Proof. by destruct errors. Qed.

Lemma synchronous_enabled (validator : ValidatorFn) (c : FormControl.t) :
  FormControl.synchronous validator c →
  FormControl.disabled c = false ∧ FormControl.status c ≠ PENDING.
Proof.
  intros [_ Hst]. unfold FormControl.disabled. rewrite Hst.
  destruct (calculateStatus_enabled (FormControl.errors c)) as [Hd Hp].
  split; [by apply bool_decide_eq_false_2 | done].
Qed.

Lemma updateControl_enabled (validator : ValidatorFn) (v : string)
    (c : FormControl.t) :
  FormControl.disabled c = false →
  updateControl validator v c
  = {| FormControl.value := v;
       FormControl.errors := validator v;
       FormControl.status := FormControl.calculateStatus false (validator v);
       FormControl.dirty := true;
       FormControl.touched := FormControl.touched c |}.
Proof.
  intros Hen. unfold updateControl, FormControl.setValue,
    FormControl.updateValueAndValidity, FormControl.disabled in *.
  cbn in *. by rewrite Hen.
Qed.

Lemma updateControl_synchronous (validator : ValidatorFn) (v : string)
    (c : FormControl.t) :
  FormControl.synchronous validator c →
  FormControl.synchronous validator (updateControl validator v c).
Proof.
  intros Hs. destruct (synchronous_enabled validator c Hs) as [Hen _].
  rewrite (updateControl_enabled validator v c Hen). by split.
Qed.

Lemma markAsTouched_synchronous (validator : ValidatorFn) (c : FormControl.t) :
  FormControl.synchronous validator c →
  FormControl.synchronous validator (FormControl.markAsTouched c).
Proof. intros [Hv Hs]. by split. Qed.

Lemma new_synchronous (validator : ValidatorFn) (formState : string) :
  FormControl.synchronous validator (FormControl.new formState validator).
Proof. by split. Qed.

Lemma formGroup_initial_inv :
  form_inv EMAIL_REGEXP (formGroup_initial EMAIL_REGEXP).
Proof.
  unfold form_inv, formGroup_initial, FormGroup.new. cbn.
  split; [apply new_synchronous |]. split; [apply new_synchronous | done].
Qed.

Lemma form_step_inv (e : FormEvent) (fg : FormGroup.t) :
  form_inv EMAIL_REGEXP fg →
  form_inv EMAIL_REGEXP (form_step EMAIL_REGEXP e fg).
Proof.
  intros (He & Hp & Hfg). destruct e; unfold form_inv; cbn.
  - split; [by apply updateControl_synchronous |]. by split.
  - split; [done |]. split; [by apply updateControl_synchronous | done].
  - split; [by apply markAsTouched_synchronous |]. split; [done |].
    destruct fg as [[[] p] v s]. cbn in *.
    injection Hfg as Hv Hs. unfold FormGroup.updateValueAndValidity.
    by f_equal.
  - split; [done |]. split; [by apply markAsTouched_synchronous |].
    destruct fg as [[e []] v s]. cbn in *.
    injection Hfg as Hv Hs. unfold FormGroup.updateValueAndValidity.
    by f_equal.
Qed.

Lemma form_after_inv (events : list FormEvent) (fg : FormGroup.t) :
  form_inv EMAIL_REGEXP fg →
  form_inv EMAIL_REGEXP (form_after EMAIL_REGEXP events fg).
Proof.
  revert fg. induction events as [| e events IH]; intros fg Hinv; [done |].
  cbn. apply IH. by apply form_step_inv.
Qed.

(** Whatever the user does, both controls stay validated. *)
Lemma form_after_validated (events : list FormEvent) :
  let cs :=
    FormGroup.controls
      (form_after EMAIL_REGEXP events (formGroup_initial EMAIL_REGEXP)) in
  FormControl.validated (emailValidator EMAIL_REGEXP) (FormGroup.email cs) ∧
  FormControl.validated passwordValidator (FormGroup.password cs).
Proof.
  destruct (form_after_inv events _ formGroup_initial_inv)
    as ([He _] & [Hp _] & _).
  by split.
Qed.

Lemma emissions_inv (events : list FormEvent) (fg : FormGroup.t) :
  form_inv EMAIL_REGEXP fg →
  Forall (form_inv EMAIL_REGEXP) (emissions EMAIL_REGEXP events fg).
Proof.
  revert fg.
  induction events as [| e events IH]; intros fg Hinv; [constructor |].
  cbn [emissions]. pose proof (form_step_inv e fg Hinv) as Hstep.
  destruct (emits e); [constructor; [done |] |]; by apply IH.
Qed.

(** Under the invariant the group is valid or invalid, never pending or
    disabled. *)
Lemma form_inv_status (fg : FormGroup.t) :
  form_inv EMAIL_REGEXP fg →
  FormGroup.status fg = VALID ∨ FormGroup.status fg = INVALID.
Proof.
  intros (He & Hp & Hfg). rewrite Hfg. cbn. unfold FormGroup.calculateStatus.
  destruct (synchronous_enabled _ _ He) as [Hde Hpe].
  destruct (synchronous_enabled _ _ Hp) as [Hdp Hpp].
  unfold FormGroup.allControlsDisabled, FormGroup.anyControlsHaveStatus. cbn.
  rewrite Hde. cbn.
  rewrite (bool_decide_eq_false_2 _ Hpe), (bool_decide_eq_false_2 _ Hpp). cbn.
  destruct (_ || _); auto.
Qed.

(** The form of scenario A is valid as soon as the e-mail test accepts its
    address, and it holds exactly the two credentials typed. *)
Lemma formGroup_scenario_A_valid :
  EMAIL_REGEXP "a@b.com" = true →
  FormGroup.valid (formGroup_scenario_A EMAIL_REGEXP) = true ∧
  FormGroup.value (formGroup_scenario_A EMAIL_REGEXP)
  = {[ "email" := "a@b.com"; "password" := "password1" ]}.
Proof.
  intros Hre.
  assert (Hform : formGroup_scenario_A EMAIL_REGEXP
    = FormGroup.updateValueAndValidity
        {| FormGroup.email := FormControl.mk "a@b.com" None VALID true false;
           FormGroup.password :=
             FormControl.mk "password1" None VALID true false |}).
  { unfold formGroup_scenario_A, form_after. cbn [foldl].
    unfold form_step at 2.
    cbn [FormGroup.controls FormGroup.email FormGroup.password
         formGroup_initial FormGroup.new FormGroup.updateValueAndValidity].
    rewrite updateControl_enabled by reflexivity.
    rewrite emailValidator_nonempty by done. rewrite Hre.
    unfold form_step.
    cbn [FormGroup.controls FormGroup.email FormGroup.password
         FormGroup.updateValueAndValidity].
    rewrite updateControl_enabled by reflexivity.
    rewrite passwordValidator_nonempty by done.
    reflexivity. }
  rewrite Hform. split; vm_compute; reflexivity.
Qed.

End Forms.

(** ** Properties of submission *)

Section Submission.

Variable EMAIL_REGEXP : string → bool.
Variable loginUser : AuthUser → Rx.Observable AuthResponse.t.

Implicit Types (this : LoginComponent) (event : Js.Value).
Implicit Types (response : AuthResponse.t).

(** The three branches of the response handler, as exact traces. *)

Lemma onResponse_error_trace response this :
  Js.ToBoolean (AuthResponse.error response) = true →
  onResponse response this
  = (tt, this, [ snackBar_open "Login failed" None config_login_failed ]).
Proof. intros Herr. unfold onResponse. rewrite Herr. reflexivity. Qed.

Lemma onResponse_token_trace response this :
  Js.ToBoolean (AuthResponse.error response) = false →
  AuthResponse.token_truthy response = true →
  onResponse response this
  = (tt, this, [ snackBar_open "Logged in!" None config_logged_in;
                 router_navigateByUrl "/settings" ]).
Proof. intros Herr Htok. unfold onResponse. rewrite Herr, Htok. reflexivity. Qed.

Lemma onResponse_neither_trace response this :
  Js.ToBoolean (AuthResponse.error response) = false →
  AuthResponse.token_truthy response = false →
  onResponse response this = (tt, this, []).
Proof. intros Herr Htok. unfold onResponse. rewrite Herr, Htok. reflexivity. Qed.

(** The handler never touches the component state. *)
Lemma onResponse_state response this :
  state_after (onResponse response this) = this.
Proof.
  unfold onResponse.
  destruct (Js.ToBoolean _); [reflexivity |].
  destruct (AuthResponse.token_truthy _); reflexivity.
Qed.

(** [onSubmit] with the guard resolved. *)

Lemma onSubmit_invalid event this :
  FormGroup.valid (formGroup this) = false →
  onSubmit loginUser event this = (tt, this, []).
Proof.
  intros Hinv. unfold onSubmit, mbind, Action_bind, this_formGroup.
  rewrite Hinv. reflexivity.
Qed.

Lemma onSubmit_valid event this :
  FormGroup.valid (formGroup this) = true →
  let user := FormGroup.value (formGroup this) in
  let r := subscribe (loginUser user) onResponse this in
  onSubmit loginUser event this
  = (tt, state_after r, loginUser_call user :: trace_of r).
Proof.
  intros Hval. unfold onSubmit, mbind, Action_bind, this_formGroup.
  rewrite Hval. unfold authService_loginUser. cbn.
  destruct (subscribe _ _ _) as [[[] this'] trace]. reflexivity.
Qed.

(** Handling responses makes no further call to the service. *)
Lemma subscribe_onResponse_no_login (responses : Rx.Observable AuthResponse.t)
    this :
  loginUser_calls (trace_of (subscribe responses onResponse this)) = [].
Proof.
  revert this. induction responses as [| response responses IH]; intros this.
  - reflexivity.
  - cbn [subscribe]. unfold mbind, Action_bind.
    pose proof (onResponse_state response this) as Hst.
    destruct (onResponse response this) as [[[] this1] trace1] eqn:Hr.
    cbn in Hst. subst this1.
    specialize (IH this).
    destruct (subscribe responses onResponse this) as [[[] this2] trace2].
    cbn in IH |- *. unfold loginUser_calls in *. rewrite omap_app, IH, app_nil_r.
    unfold onResponse in Hr.
    destruct (Js.ToBoolean _); [by inversion Hr |].
    destruct (AuthResponse.token_truthy _); by inversion Hr.
Qed.

(** A stream of one response runs the handler once. *)
Lemma subscribe_single response this :
  subscribe [response] onResponse this = onResponse response this.
Proof.
  cbn [subscribe]. unfold mbind, Action_bind, mret, Action_ret.
  destruct (onResponse response this) as [[[] this1] trace1].
  by rewrite app_nil_r.
Qed.

Lemma onSubmit_each_invalid (events : list Js.Value) this :
  FormGroup.valid (formGroup this) = false →
  onSubmit_each loginUser events this = (tt, this, []).
Proof.
  intros Hinv. induction events as [| event events IH].
  - reflexivity.
  - cbn [onSubmit_each]. unfold mbind, Action_bind.
    rewrite (onSubmit_invalid event this Hinv), IH. reflexivity.
Qed.

(** A valid form and a service that answers with one response: the call,
    then whatever the handler does with the response. *)
Lemma onSubmit_single_response event this response :
  FormGroup.valid (formGroup this) = true →
  loginUser (FormGroup.value (formGroup this)) = [response] →
  onSubmit loginUser event this
  = (tt, this,
     loginUser_call (FormGroup.value (formGroup this))
       :: trace_of (onResponse response this)).
Proof.
  intros Hval Hone. rewrite (onSubmit_valid event this Hval). cbn zeta.
  rewrite Hone, subscribe_single, onResponse_state. reflexivity.
Qed.

(** C1. While the form is not valid, [onSubmit] is a no-op however often it
    is called and whatever event it is given: no call to [loginUser], no
    notification, no navigation, and the component state is left as it
    was. *)
Theorem onSubmit_invalid_is_noop (events : list Js.Value) this :
  FormGroup.valid (formGroup this) = false →
  let r := onSubmit_each loginUser events this in
  trace_of r = [] ∧
  loginUser_calls (trace_of r) = [] ∧
  notifications (trace_of r) = [] ∧
  navigations (trace_of r) = [] ∧
  state_after r = this.
Proof.
  intros Hinv r. subst r. rewrite (onSubmit_each_invalid events this Hinv).
  repeat split.
Qed.

(** C2. When the form is valid, [onSubmit] calls [loginUser] exactly once,
    with the value the form group holds at that moment; for the form in
    which the user typed "a@b.com" and "password1", the one call carries
    exactly [{email: "a@b.com", password: "password1"}]. *)
Theorem onSubmit_valid_calls_loginUser_once event :
  (∀ this,
     FormGroup.valid (formGroup this) = true →
     loginUser_calls (trace_of (onSubmit loginUser event this))
     = [ FormGroup.value (formGroup this) ]) ∧
  (EMAIL_REGEXP "a@b.com" = true →
   loginUser_calls
     (trace_of (onSubmit loginUser event
                  {| formGroup := formGroup_scenario_A EMAIL_REGEXP |}))
   = [ {[ "email" := "a@b.com"; "password" := "password1" ]} ]).
Proof.
  assert (Hgen : ∀ this,
     FormGroup.valid (formGroup this) = true →
     loginUser_calls (trace_of (onSubmit loginUser event this))
     = [ FormGroup.value (formGroup this) ]).
  { intros this Hval. rewrite (onSubmit_valid event this Hval).
    cbn. unfold loginUser_calls in *. f_equal.
    apply subscribe_onResponse_no_login. }
  split; [exact Hgen |].
  intros Hre. destruct (formGroup_scenario_A_valid EMAIL_REGEXP Hre) as [Hval Hvalue].
  rewrite Hgen by exact Hval. cbn [formGroup]. by rewrite Hvalue.
Qed.

(** C3. A response whose [error] is truthy: exactly one notification, with
    the message "Login failed" and a duration of 1000 ms, and no
    navigation -- both for the handler run on that response and for a whole
    submission answered by it. *)
Theorem error_response_notifies_failure response :
  Js.ToBoolean (AuthResponse.error response) = true →
  (∀ this,
     notifications (trace_of (onResponse response this))
     = [ ("Login failed", config_login_failed) ] ∧
     navigations (trace_of (onResponse response this)) = []) ∧
  (∀ event this,
     FormGroup.valid (formGroup this) = true →
     loginUser (FormGroup.value (formGroup this)) = [response] →
     notifications (trace_of (onSubmit loginUser event this))
     = [ ("Login failed", config_login_failed) ] ∧
     navigations (trace_of (onSubmit loginUser event this)) = []).
Proof.
  intros Herr. split.
  - intros this. by rewrite (onResponse_error_trace response this Herr).
  - intros event this Hval Hone.
    rewrite (onSubmit_single_response event this response Hval Hone).
    by rewrite (onResponse_error_trace response this Herr).
Qed.

(** C4. A response whose [error] is falsy and whose [token] is truthy:
    exactly one notification, with the message "Logged in!", a duration of
    1000 ms and placement top/right, and exactly one navigation, to
    "/settings". *)
Theorem token_response_notifies_and_navigates response :
  Js.ToBoolean (AuthResponse.error response) = false →
  AuthResponse.token_truthy response = true →
  (∀ this,
     notifications (trace_of (onResponse response this))
     = [ ("Logged in!", config_logged_in) ] ∧
     navigations (trace_of (onResponse response this)) = [ "/settings" ]) ∧
  (∀ event this,
     FormGroup.valid (formGroup this) = true →
     loginUser (FormGroup.value (formGroup this)) = [response] →
     notifications (trace_of (onSubmit loginUser event this))
     = [ ("Logged in!", config_logged_in) ] ∧
     navigations (trace_of (onSubmit loginUser event this)) = [ "/settings" ]).
Proof.
  intros Herr Htok. split.
  - intros this. by rewrite (onResponse_token_trace response this Herr Htok).
  - intros event this Hval Hone.
    rewrite (onSubmit_single_response event this response Hval Hone).
    by rewrite (onResponse_token_trace response this Herr Htok).
Qed.

(** C5. A response in which neither [error] nor [token] is truthy: no
    notification and no navigation. *)
Theorem empty_response_is_silent response :
  Js.ToBoolean (AuthResponse.error response) = false →
  AuthResponse.token_truthy response = false →
  (∀ this,
     notifications (trace_of (onResponse response this)) = [] ∧
     navigations (trace_of (onResponse response this)) = []) ∧
  (∀ event this,
     FormGroup.valid (formGroup this) = true →
     loginUser (FormGroup.value (formGroup this)) = [response] →
     notifications (trace_of (onSubmit loginUser event this)) = [] ∧
     navigations (trace_of (onSubmit loginUser event this)) = []).
Proof.
  intros Herr Htok. split.
  - intros this. by rewrite (onResponse_neither_trace response this Herr Htok).
  - intros event this Hval Hone.
    rewrite (onSubmit_single_response event this response Hval Hone).
    by rewrite (onResponse_neither_trace response this Herr Htok).
Qed.

(** C9. A response in which both [error] and [token] are truthy: the error
    branch wins.  Exactly one notification, "Login failed"; no "Logged in!"
    notification; no navigation. *)
Theorem error_takes_precedence_over_token response :
  Js.ToBoolean (AuthResponse.error response) = true →
  AuthResponse.token_truthy response = true →
  ∀ this,
    let trace := trace_of (onResponse response this) in
    notifications trace = [ ("Login failed", config_login_failed) ] ∧
    (∀ config, ("Logged in!", config) ∉ notifications trace) ∧
    navigations trace = [].
Proof.
  intros Herr _ this trace. subst trace.
  rewrite (onResponse_error_trace response this Herr). cbn.
  split; [done |]. split; [| done].
  intros config Hin. apply list_elem_of_singleton in Hin. discriminate Hin.
Qed.

End Submission.

(** ** Properties of the derived streams *)

Section Derived.

Variable EMAIL_REGEXP : string → bool.

Implicit Types (this : LoginComponent) (value : AuthUser).

Lemma buttonDisabled_S_lookup (statuses : Rx.Observable FormStatus) (n : nat) :
  buttonDisabled_S statuses !! S n
  = (λ status, bool_decide (status = INVALID)) <$> statuses !! n.
Proof.
  unfold buttonDisabled_S, Rx.startWith, Rx.map. cbn.
  apply list_lookup_fmap.
Qed.

(** The hint for a given errors object of the e-mail control. *)
Lemma emailMessage_required this value (errors : ValidationErrors) :
  FormControl.errors (FormGroup.email (FormGroup.controls (formGroup this)))
  = Some errors →
  Js.ToBoolean (Js.get errors "required") = true →
  emailMessage this value = "This filed is required".
Proof. intros He Hreq. unfold emailMessage. rewrite He. cbn. by rewrite Hreq. Qed.

(** The hint for a given errors object of a dirty password control. *)
Lemma passwordMessage_required this value (errors : ValidationErrors) :
  FormControl.dirty (FormGroup.password (FormGroup.controls (formGroup this)))
  = true →
  FormControl.errors (FormGroup.password (FormGroup.controls (formGroup this)))
  = Some errors →
  Js.ToBoolean (Js.get errors "required") = true →
  passwordMessage this value = "Password is required".
Proof.
  intros Hd He Hreq. unfold passwordMessage. by rewrite He, Hd, Hreq.
Qed.

(** C8. The first emission of [buttonDisabled$] is [true] for every form,
    whatever its fields hold.  After it, every emission of the form as the
    user drives it at which the form is not valid is [true]; so is every
    emission of a status that is neither valid, pending nor disabled. *)
Theorem buttonDisabled_when_not_valid (statuses : Rx.Observable FormStatus) :
  buttonDisabled_S statuses !! 0 = Some true ∧
  (∀ (n : nat) (fg : FormGroup.t),
     statuses !! n = Some (FormGroup.status fg) →
     FormGroup.status fg ≠ PENDING →
     FormGroup.status fg ≠ DISABLED →
     FormGroup.valid fg = false →
     buttonDisabled_S statuses !! S n = Some true) ∧
  (∀ (events : list FormEvent) (n : nat) (fg : FormGroup.t),
     emissions EMAIL_REGEXP events (formGroup_initial EMAIL_REGEXP) !! n
     = Some fg →
     FormGroup.valid fg = false →
     buttonDisabled_S
       (statusChanges EMAIL_REGEXP events (formGroup_initial EMAIL_REGEXP))
       !! S n
     = Some true).
Proof.
  split; [reflexivity |]. split.
  - intros n fg Hn Hp Hd Hinv. rewrite buttonDisabled_S_lookup, Hn. cbn.
    apply bool_decide_eq_false_1 in Hinv.
    f_equal. apply bool_decide_eq_true_2.
    by destruct (FormGroup.status fg).
  - intros events n fg Hn Hinv.
    rewrite buttonDisabled_S_lookup. unfold statusChanges.
    rewrite list_lookup_fmap, Hn. cbn.
    pose proof (emissions_inv EMAIL_REGEXP events _
                  (formGroup_initial_inv EMAIL_REGEXP)) as Hall.
    rewrite Forall_lookup in Hall. specialize (Hall n fg Hn).
    apply bool_decide_eq_false_1 in Hinv.
    f_equal. apply bool_decide_eq_true_2.
    by destruct (form_inv_status EMAIL_REGEXP fg Hall).
Qed.

(** C10. Past the initial one, the emissions of [buttonDisabled$] are those
    of [statusChanges], one for one, and an emission is [true] exactly when
    the status emitted is ['INVALID']: every other status, ['PENDING']
    included, gives [false]. *)
Theorem buttonDisabled_iff_INVALID (statuses : Rx.Observable FormStatus)
    (n : nat) :
  (∀ status : FormStatus,
     statuses !! n = Some status →
     buttonDisabled_S statuses !! S n = Some (bool_decide (status = INVALID)) ∧
     (status = INVALID → buttonDisabled_S statuses !! S n = Some true) ∧
     (status ≠ INVALID → buttonDisabled_S statuses !! S n = Some false)) ∧
  (∀ b : bool,
     buttonDisabled_S statuses !! S n = Some b →
     ∃ status : FormStatus,
       statuses !! n = Some status ∧ (b = true ↔ status = INVALID)).
Proof.
  split.
  - intros status Hn. rewrite buttonDisabled_S_lookup, Hn. cbn.
    split; [done |]. split; intros Hs; f_equal.
    + by apply bool_decide_eq_true_2.
    + by apply bool_decide_eq_false_2.
  - intros b Hb. rewrite buttonDisabled_S_lookup in Hb.
    destruct (statuses !! n) as [status |]; [| discriminate Hb].
    exists status. split; [done |]. cbn in Hb. injection Hb as <-.
    apply bool_decide_eq_true.
Qed.

End Derived.

(** ** The properties at concrete inputs *)

(** Submitting the freshly built (empty, hence invalid) form three times. *)
Lemma onSubmit_invalid_is_noop_witness :
  let this := LoginComponent_new sample_EMAIL_REGEXP in
  let r :=
    onSubmit_each (service_answering response_token)
      [ Js.Undefined; Js.Null; Js.Object [] ] this in
  FormGroup.valid (formGroup this) = false ∧
  trace_of r = [] ∧
  loginUser_calls (trace_of r) = [] ∧
  notifications (trace_of r) = [] ∧
  navigations (trace_of r) = [] ∧
  state_after r = this.
Proof.
  intros this r. split; [vm_compute; reflexivity |].
  apply (onSubmit_invalid_is_noop (service_answering response_token)
           [ Js.Undefined; Js.Null; Js.Object [] ] this).
  vm_compute; reflexivity.
Defined.

(** Scenario A. *)
Lemma onSubmit_valid_calls_loginUser_once_witness :
  let this := {| formGroup := formGroup_scenario_A sample_EMAIL_REGEXP |} in
  let calls :=
    loginUser_calls
      (trace_of (onSubmit (service_answering response_token) Js.Undefined this)) in
  FormGroup.valid (formGroup this) = true ∧
  sample_EMAIL_REGEXP "a@b.com" = true ∧
  calls = [ FormGroup.value (formGroup this) ] ∧
  calls = [ {[ "email" := "a@b.com"; "password" := "password1" ]} ].
Proof.
  intros this calls.
  pose proof (onSubmit_valid_calls_loginUser_once sample_EMAIL_REGEXP
                (service_answering response_token) Js.Undefined)
    as [Hgeneral Hscenario].
  split; [vm_compute; reflexivity |]. split; [vm_compute; reflexivity |].
  split.
  - apply (Hgeneral this). vm_compute; reflexivity.
  - apply Hscenario. vm_compute; reflexivity.
Defined.

(** Scenario B. *)
Lemma error_response_notifies_failure_witness :
  let this := {| formGroup := formGroup_scenario_A sample_EMAIL_REGEXP |} in
  let loginUser := service_answering response_bad_credentials in
  Js.ToBoolean (AuthResponse.error response_bad_credentials) = true ∧
  FormGroup.valid (formGroup this) = true ∧
  notifications (trace_of (onSubmit loginUser Js.Undefined this))
  = [ ("Login failed", config_login_failed) ] ∧
  navigations (trace_of (onSubmit loginUser Js.Undefined this)) = [].
Proof.
  intros this loginUser.
  assert (Herr : Js.ToBoolean (AuthResponse.error response_bad_credentials)
                 = true) by reflexivity.
  assert (Hval : FormGroup.valid (formGroup this) = true)
    by (vm_compute; reflexivity).
  split; [exact Herr |]. split; [exact Hval |].
  apply (proj2 (error_response_notifies_failure loginUser
                  response_bad_credentials Herr) Js.Undefined this Hval).
  reflexivity.
Defined.

(** Scenario C. *)
Lemma token_response_notifies_and_navigates_witness :
  let this := {| formGroup := formGroup_scenario_A sample_EMAIL_REGEXP |} in
  let loginUser := service_answering response_token in
  Js.ToBoolean (AuthResponse.error response_token) = false ∧
  AuthResponse.token_truthy response_token = true ∧
  FormGroup.valid (formGroup this) = true ∧
  notifications (trace_of (onSubmit loginUser Js.Undefined this))
  = [ ("Logged in!", config_logged_in) ] ∧
  navigations (trace_of (onSubmit loginUser Js.Undefined this))
  = [ "/settings" ].
Proof.
  intros this loginUser.
  assert (Herr : Js.ToBoolean (AuthResponse.error response_token) = false)
    by reflexivity.
  assert (Htok : AuthResponse.token_truthy response_token = true)
    by reflexivity.
  assert (Hval : FormGroup.valid (formGroup this) = true)
    by (vm_compute; reflexivity).
  split; [exact Herr |]. split; [exact Htok |]. split; [exact Hval |].
  apply (proj2 (token_response_notifies_and_navigates loginUser
                  response_token Herr Htok) Js.Undefined this Hval).
  reflexivity.
Defined.

(** Scenario D. *)
Lemma empty_response_is_silent_witness :
  let this := {| formGroup := formGroup_scenario_A sample_EMAIL_REGEXP |} in
  let loginUser := service_answering response_empty in
  Js.ToBoolean (AuthResponse.error response_empty) = false ∧
  AuthResponse.token_truthy response_empty = false ∧
  FormGroup.valid (formGroup this) = true ∧
  notifications (trace_of (onSubmit loginUser Js.Undefined this)) = [] ∧
  navigations (trace_of (onSubmit loginUser Js.Undefined this)) = [].
Proof.
  intros this loginUser.
  assert (Herr : Js.ToBoolean (AuthResponse.error response_empty) = false)
    by reflexivity.
  assert (Htok : AuthResponse.token_truthy response_empty = false)
    by reflexivity.
  assert (Hval : FormGroup.valid (formGroup this) = true)
    by (vm_compute; reflexivity).
  split; [exact Herr |]. split; [exact Htok |]. split; [exact Hval |].
  apply (proj2 (empty_response_is_silent loginUser
                  response_empty Herr Htok) Js.Undefined this Hval).
  reflexivity.
Defined.

(** A response carrying both a token and an error. *)
Lemma error_takes_precedence_over_token_witness :
  let this := {| formGroup := formGroup_scenario_A sample_EMAIL_REGEXP |} in
  let trace := trace_of (onResponse response_token_and_error this) in
  Js.ToBoolean (AuthResponse.error response_token_and_error) = true ∧
  AuthResponse.token_truthy response_token_and_error = true ∧
  notifications trace = [ ("Login failed", config_login_failed) ] ∧
  (∀ config, ("Logged in!", config) ∉ notifications trace) ∧
  navigations trace = [].
Proof.
  intros this trace.
  assert (Herr : Js.ToBoolean (AuthResponse.error response_token_and_error)
                 = true) by reflexivity.
  assert (Htok : AuthResponse.token_truthy response_token_and_error = true)
    by reflexivity.
  split; [exact Herr |]. split; [exact Htok |].
  exact (error_takes_precedence_over_token response_token_and_error
           Herr Htok this).
Defined.

(** While the user is still typing into the password field, the control is
    dirty and not yet touched, and the hint already shows. *)
Example passwordMessage_while_typing :
  let this :=
    {| formGroup :=
         form_after sample_EMAIL_REGEXP [ input_password "abc" ]
           (formGroup_initial sample_EMAIL_REGEXP) |} in
  let control := FormGroup.password (FormGroup.controls (formGroup this)) in
  FormControl.touched control = false ∧
  FormControl.dirty control = true ∧
  passwordMessage this (FormGroup.value (formGroup this))
  = "Password should have at least 8 characters".
Proof. repeat split. Qed.

(** The button over the user typing one letter of an address: the form is
    invalid and the button disabled. *)
Lemma buttonDisabled_when_not_valid_witness :
  let events := [ input_email "a" ] in
  let fg := form_after sample_EMAIL_REGEXP events
              (formGroup_initial sample_EMAIL_REGEXP) in
  let statuses := statusChanges sample_EMAIL_REGEXP events
                    (formGroup_initial sample_EMAIL_REGEXP) in
  FormGroup.valid fg = false ∧
  statuses !! 0 = Some (FormGroup.status fg) ∧
  buttonDisabled_S statuses !! 0 = Some true ∧
  buttonDisabled_S statuses !! 1 = Some true.
Proof.
  intros events fg statuses.
  pose proof (buttonDisabled_when_not_valid sample_EMAIL_REGEXP statuses)
    as (Hfirst & Hstatus & Hdriven).
  split; [vm_compute; reflexivity |]. split; [vm_compute; reflexivity |].
  split; [exact Hfirst |].
  assert (Hagain : buttonDisabled_S statuses !! 1 = Some true).
  { apply (Hdriven events 0 fg); vm_compute; reflexivity. }
  apply (Hstatus 0 fg);
    [vm_compute; reflexivity | vm_compute; discriminate
    | vm_compute; discriminate | vm_compute; reflexivity].
Defined.

(** The button over the statuses invalid, pending, valid. *)
Lemma buttonDisabled_iff_INVALID_witness :
  let statuses := [ INVALID; PENDING; VALID ] in
  buttonDisabled_S statuses !! 1 = Some true ∧
  buttonDisabled_S statuses !! 2 = Some false ∧
  buttonDisabled_S statuses !! 3 = Some false ∧
  ∃ status, statuses !! 1 = Some status ∧ (false = true ↔ status = INVALID).
Proof.
  intros statuses. split; [| split; [| split]].
  - apply (proj1 (buttonDisabled_iff_INVALID statuses 0) INVALID);
      reflexivity.
  - apply (proj1 (buttonDisabled_iff_INVALID statuses 1) PENDING);
      [reflexivity | discriminate].
  - apply (proj1 (buttonDisabled_iff_INVALID statuses 2) VALID);
      [reflexivity | discriminate].
  - apply (proj2 (buttonDisabled_iff_INVALID statuses 1) false). reflexivity.
Defined.

(** ** Further properties of submission *)

Section Traces.

Variable EMAIL_REGEXP : string → bool.
Variable loginUser : AuthUser → Rx.Observable AuthResponse.t.

Implicit Types (this : LoginComponent) (event : Js.Value).
Implicit Types (response : AuthResponse.t).
Implicit Types (responses : Rx.Observable AuthResponse.t).

(** The handler returns the component it was given. *)
Lemma onResponse_result response this :
  onResponse response this = (tt, this, trace_of (onResponse response this)).
Proof.
  unfold onResponse.
  destruct (Js.ToBoolean _); [reflexivity |].
  destruct (AuthResponse.token_truthy _); reflexivity.
Qed.

(** Subscribing the handler to a stream chains the traces of the
    responses, one after the other. *)
Lemma subscribe_onResponse responses this :
  subscribe responses onResponse this
  = (tt, this, responses ≫= (λ r, trace_of (onResponse r this))).
Proof.
  induction responses as [| response responses IH]; [reflexivity |].
  cbn [subscribe]. unfold mbind at 1, Action_bind.
  rewrite (onResponse_result response this), IH. reflexivity.
Qed.

Lemma onSubmit_valid_result event this :
  FormGroup.valid (formGroup this) = true →
  onSubmit loginUser event this
  = (tt, this,
     loginUser_call (FormGroup.value (formGroup this))
       :: (loginUser (FormGroup.value (formGroup this))
             ≫= (λ r, trace_of (onResponse r this)))).
Proof.
  intros Hval. rewrite (onSubmit_valid loginUser event this Hval). cbn zeta.
  by rewrite subscribe_onResponse.
Qed.

(** The shape of the trace left by handling a stream of responses. *)
Lemma handled_shape responses this :
  let trace := responses ≫= (λ r, trace_of (onResponse r this)) in
  loginUser_calls trace = [] ∧
  Forall (λ url, url = "/settings") (navigations trace) ∧
  Forall (λ n, n = ("Login failed", config_login_failed)
               ∨ n = ("Logged in!", config_logged_in))
         (notifications trace) ∧
  length (navigations trace)
  = length (filter (λ n, n.1 = "Logged in!") (notifications trace)).
Proof.
  induction responses as [| response responses IH].
  - cbn. repeat split; constructor.
  - cbn zeta in *. cbn [mbind list_bind].
    destruct IH as (Hcalls & Hnav & Hnot & Hlen).
    unfold loginUser_calls, navigations, notifications in *.
    rewrite !omap_app, filter_app, !length_app, !Forall_app, Hcalls, Hlen.
    destruct (Js.ToBoolean (AuthResponse.error response)) eqn:Herr;
      [ rewrite (onResponse_error_trace response this Herr)
      | destruct (AuthResponse.token_truthy response) eqn:Htok;
        [ rewrite (onResponse_token_trace response this Herr Htok)
        | rewrite (onResponse_neither_trace response this Herr Htok) ] ];
      cbn; repeat split; auto.
Qed.

(** X2. Nothing guards against submitting twice: on a valid form, each call
    of [onSubmit] calls [loginUser] again, with the same credentials, and
    the component stays as it is. *)
Theorem onSubmit_each_valid (events : list Js.Value) this :
  FormGroup.valid (formGroup this) = true →
  let r := onSubmit_each loginUser events this in
  state_after r = this ∧
  loginUser_calls (trace_of r)
  = replicate (length events) (FormGroup.value (formGroup this)).
Proof.
  intros Hval.
  assert (Hall : ∃ trace,
            onSubmit_each loginUser events this = (tt, this, trace) ∧
            loginUser_calls trace
            = replicate (length events) (FormGroup.value (formGroup this))).
  { induction events as [| event events (trace & Heq & Hcalls)].
    - by exists [].
    - eexists. cbn [onSubmit_each]. unfold mbind, Action_bind.
      rewrite (onSubmit_valid_result event this Hval), Heq.
      split; [reflexivity |].
      unfold loginUser_calls in *. rewrite omap_app, Hcalls.
      pose proof (proj1 (handled_shape
                           (loginUser (FormGroup.value (formGroup this)))
                           this)) as Hnone.
      unfold loginUser_calls in Hnone. cbn. by rewrite Hnone. }
  destruct Hall as (trace & -> & Hcalls). by split.
Qed.

(** X3. On a valid form the responses of the service are handled one by
    one: each response with a truthy [error] gives one "Login failed"
    notification, each other response with a truthy [token] gives one
    "Logged in!" notification and one navigation to "/settings", the rest
    give nothing; a failed response does not stop the handling of the
    responses after it. *)
Theorem onSubmit_handles_each_response event this :
  FormGroup.valid (formGroup this) = true →
  let responses := loginUser (FormGroup.value (formGroup this)) in
  let trace := trace_of (onSubmit loginUser event this) in
  notifications trace
  = omap (λ r, if Js.ToBoolean (AuthResponse.error r)
               then Some ("Login failed", config_login_failed)
               else if AuthResponse.token_truthy r
               then Some ("Logged in!", config_logged_in)
               else None) responses ∧
  navigations trace
  = omap (λ r, if Js.ToBoolean (AuthResponse.error r) then None
               else if AuthResponse.token_truthy r then Some "/settings"
               else None) responses.
Proof.
  intros Hval. cbn zeta. rewrite (onSubmit_valid_result event this Hval).
  cbn [trace_of snd]. unfold notifications, navigations.
  change (omap ?f (loginUser_call ?u :: ?l)) with (omap f l).
  induction (loginUser (FormGroup.value (formGroup this)))
    as [| response responses [IHnot IHnav]]; [by split |].
  cbn [mbind list_bind]. rewrite !omap_app, IHnot, IHnav. cbn.
  destruct (Js.ToBoolean (AuthResponse.error response)) eqn:Herr;
    [ rewrite (onResponse_error_trace response this Herr)
    | destruct (AuthResponse.token_truthy response) eqn:Htok;
      [ rewrite (onResponse_token_trace response this Herr Htok)
      | rewrite (onResponse_neither_trace response this Herr Htok) ] ];
    by split.
Qed.

(** X4. What a submission never does, whatever the form and the service:
    it makes at most one call to [loginUser], with the value of the form
    group and before anything else; it navigates nowhere but to
    "/settings"; it opens no snack bar other than the two the handler
    names; and it navigates exactly as often as it shows "Logged in!". *)
Theorem onSubmit_trace_shape event this :
  let trace := trace_of (onSubmit loginUser event this) in
  (trace = [] ∨
   ∃ rest, trace = loginUser_call (FormGroup.value (formGroup this)) :: rest
           ∧ loginUser_calls rest = []) ∧
  Forall (λ url, url = "/settings") (navigations trace) ∧
  Forall (λ n, n = ("Login failed", config_login_failed)
               ∨ n = ("Logged in!", config_logged_in))
         (notifications trace) ∧
  length (navigations trace)
  = length (filter (λ n, n.1 = "Logged in!") (notifications trace)).
Proof.
  cbn zeta. destruct (FormGroup.valid (formGroup this)) eqn:Hval.
  - rewrite (onSubmit_valid_result event this Hval). cbn [trace_of snd].
    destruct (handled_shape (loginUser (FormGroup.value (formGroup this)))
                this) as (Hcalls & Hnav & Hnot & Hlen).
    split; [right; eauto |]. by repeat split.
  - rewrite (onSubmit_invalid loginUser event this Hval). cbn.
    split; [by left |]. repeat split; constructor.
Qed.

End Traces.

(** ** Further properties of the form as the user drives it *)

Section UserDriven.

Variable EMAIL_REGEXP : string → bool.
Variable loginUser : AuthUser → Rx.Observable AuthResponse.t.

Implicit Types (fg : FormGroup.t) (events : list FormEvent).

(** *** When the two validators accept *)

Lemma emailValidator_None_iff (v : string) :
  emailValidator EMAIL_REGEXP v = None ↔ v ≠ "" ∧ EMAIL_REGEXP v = true.
Proof.
  destruct (decide (v = "")) as [-> | Hne].
  - rewrite emailValidator_empty. split; [done | by intros [? _]].
  - rewrite (emailValidator_nonempty EMAIL_REGEXP v Hne).
    destruct (EMAIL_REGEXP v); split; try done. by intros [_ ?].
Qed.

Lemma passwordValidator_None_iff (v : string) :
  passwordValidator v = None ↔ (8 ≤ String.length v)%nat.
Proof.
  destruct (decide (v = "")) as [-> | Hne].
  - rewrite passwordValidator_empty. split; [done | cbn; lia].
  - rewrite (passwordValidator_nonempty v Hne). case_bool_decide; split;
      try done; lia.
Qed.

(** *** The caches of the group under the invariant *)

Lemma form_inv_value fg :
  form_inv EMAIL_REGEXP fg →
  FormGroup.value fg
  = {[ "email" :=
         FormControl.value (FormGroup.email (FormGroup.controls fg));
       "password" :=
         FormControl.value (FormGroup.password (FormGroup.controls fg)) ]}.
Proof.
  intros (He & Hp & Hfg).
  destruct (synchronous_enabled _ _ He) as [Hde _].
  destruct (synchronous_enabled _ _ Hp) as [Hdp _].
  rewrite Hfg at 1. cbn [FormGroup.value FormGroup.updateValueAndValidity].
  unfold FormGroup.reduceValue, FormGroup.named. cbn [foldl fst snd].
  rewrite Hde, Hdp. cbn [negb orb].
  rewrite insert_insert_ne by done. by rewrite insert_empty.
Qed.

Lemma form_inv_valid fg :
  form_inv EMAIL_REGEXP fg →
  FormGroup.valid fg = true ↔
  FormControl.errors (FormGroup.email (FormGroup.controls fg)) = None ∧
  FormControl.errors (FormGroup.password (FormGroup.controls fg)) = None.
Proof.
  intros ([_ Hse] & [_ Hsp] & Hfg).
  assert (Hst : FormGroup.status fg
                = FormGroup.calculateStatus (FormGroup.controls fg))
    by (by rewrite Hfg at 1).
  unfold FormGroup.valid. rewrite Hst.
  unfold FormGroup.calculateStatus, FormGroup.allControlsDisabled,
    FormGroup.anyControlsHaveStatus, FormGroup.named, FormControl.disabled.
  cbn [forallb existsb snd]. rewrite Hse, Hsp.
  destruct (FormControl.errors (FormGroup.email (FormGroup.controls fg)));
    destruct (FormControl.errors (FormGroup.password (FormGroup.controls fg)));
    vm_compute; (split; [intros H | intros [H1 H2]]); done.
Qed.

Lemma form_inv_valid_values fg :
  form_inv EMAIL_REGEXP fg →
  let e := FormControl.value (FormGroup.email (FormGroup.controls fg)) in
  let p := FormControl.value (FormGroup.password (FormGroup.controls fg)) in
  FormGroup.valid fg = true ↔
  e ≠ "" ∧ EMAIL_REGEXP e = true ∧ (8 ≤ String.length p)%nat.
Proof.
  intros Hinv e p. rewrite (form_inv_valid fg Hinv).
  destruct Hinv as ([Hve _] & [Hvp _] & _). rewrite Hve, Hvp.
  rewrite emailValidator_None_iff, passwordValidator_None_iff. tauto.
Qed.

(** *** The emissions of the group *)

Lemma emissions_snoc events (e : FormEvent) fg :
  emissions EMAIL_REGEXP (events ++ [e]) fg
  = emissions EMAIL_REGEXP events fg
    ++ (if emits e
        then [ form_step EMAIL_REGEXP e (form_after EMAIL_REGEXP events fg) ]
        else []).
Proof.
  revert fg. induction events as [| e' events IH]; intros fg.
  - cbn. by destruct (emits e).
  - cbn [app emissions]. rewrite IH.
    change (form_after EMAIL_REGEXP (e' :: events) fg)
      with (form_after EMAIL_REGEXP events (form_step EMAIL_REGEXP e' fg)).
    by destruct (emits e').
Qed.

(** An event that emits nothing leaves the status of the group alone. *)
Lemma form_step_silent_status (e : FormEvent) fg :
  emits e = false →
  FormGroup.status (form_step EMAIL_REGEXP e fg) = FormGroup.status fg.
Proof. by destruct e. Qed.

(** The status of the form is the last status emitted, if any. *)
Lemma status_after events fg :
  FormGroup.status (form_after EMAIL_REGEXP events fg)
  = default (FormGroup.status fg) (last (statusChanges EMAIL_REGEXP events fg)).
Proof.
  revert fg. induction events as [| e events IH]; intros fg; [done |].
  change (form_after EMAIL_REGEXP (e :: events) fg)
    with (form_after EMAIL_REGEXP events (form_step EMAIL_REGEXP e fg)).
  rewrite IH. unfold statusChanges. cbn [emissions].
  destruct (emits e) eqn:He.
  - rewrite fmap_cons, last_cons. by destruct (last _).
  - by rewrite (form_step_silent_status e fg He).
Qed.

(** The controls after typing into a field. *)
Lemma form_step_input_email (v : string) fg :
  form_inv EMAIL_REGEXP fg →
  FormGroup.email
    (FormGroup.controls (form_step EMAIL_REGEXP (input_email v) fg))
  = {| FormControl.value := v;
       FormControl.errors := emailValidator EMAIL_REGEXP v;
       FormControl.status :=
         FormControl.calculateStatus false (emailValidator EMAIL_REGEXP v);
       FormControl.dirty := true;
       FormControl.touched :=
         FormControl.touched (FormGroup.email (FormGroup.controls fg)) |}.
Proof.
  intros (He & _ & _). destruct (synchronous_enabled _ _ He) as [Hen _].
  cbn. by rewrite (updateControl_enabled _ v _ Hen).
Qed.

Lemma form_step_input_password (v : string) fg :
  form_inv EMAIL_REGEXP fg →
  FormGroup.password
    (FormGroup.controls (form_step EMAIL_REGEXP (input_password v) fg))
  = {| FormControl.value := v;
       FormControl.errors := passwordValidator v;
       FormControl.status :=
         FormControl.calculateStatus false (passwordValidator v);
       FormControl.dirty := true;
       FormControl.touched :=
         FormControl.touched (FormGroup.password (FormGroup.controls fg)) |}.
Proof.
  intros (_ & Hp & _). destruct (synchronous_enabled _ _ Hp) as [Hen _].
  cbn. by rewrite (updateControl_enabled _ v _ Hen).
Qed.

(** Events other than typing into the password field leave the [dirty]
    flag of its control alone. *)
Lemma form_step_password_dirty (e : FormEvent) fg :
  (∀ v, e ≠ input_password v) →
  FormControl.dirty
    (FormGroup.password (FormGroup.controls (form_step EMAIL_REGEXP e fg)))
  = FormControl.dirty (FormGroup.password (FormGroup.controls fg)).
Proof.
  intros Hne. destruct e as [v | v | |]; try done. by destruct (Hne v).
Qed.

(** Events other than typing into the e-mail field leave the errors of its
    control alone. *)
Lemma form_step_email_errors (e : FormEvent) fg :
  (∀ v, e ≠ input_email v) →
  FormControl.errors
    (FormGroup.email (FormGroup.controls (form_step EMAIL_REGEXP e fg)))
  = FormControl.errors (FormGroup.email (FormGroup.controls fg)).
Proof.
  intros Hne. destruct e as [v | v | |]; try done. by destruct (Hne v).
Qed.

(** X5. The form the user has driven is valid exactly when the e-mail typed
    is not empty and passes the e-mail test and the password typed has at
    least 8 characters; its value holds the two texts typed, under the keys
    [email] and [password]. *)
Theorem form_valid_iff events :
  let fg := form_after EMAIL_REGEXP events (formGroup_initial EMAIL_REGEXP) in
  let e := FormControl.value (FormGroup.email (FormGroup.controls fg)) in
  let p := FormControl.value (FormGroup.password (FormGroup.controls fg)) in
  (FormGroup.valid fg = true ↔
   e ≠ "" ∧ EMAIL_REGEXP e = true ∧ (8 ≤ String.length p)%nat) ∧
  FormGroup.value fg = {[ "email" := e; "password" := p ]}.
Proof.
  intros fg e p.
  pose proof (form_after_inv EMAIL_REGEXP events _
                (formGroup_initial_inv EMAIL_REGEXP)) as Hinv.
  split.
  - apply (form_inv_valid_values fg Hinv).
  - apply (form_inv_value fg Hinv).
Qed.

(** X6. Submitting the form the user has driven sends the credentials to
    the service exactly when they pass the checks of the form, and then it
    sends the two texts typed; otherwise it sends nothing. *)
Theorem onSubmit_sends_checked_credentials events (event : Js.Value) :
  let fg := form_after EMAIL_REGEXP events (formGroup_initial EMAIL_REGEXP) in
  let e := FormControl.value (FormGroup.email (FormGroup.controls fg)) in
  let p := FormControl.value (FormGroup.password (FormGroup.controls fg)) in
  loginUser_calls (trace_of (onSubmit loginUser event {| formGroup := fg |}))
  = if bool_decide (e ≠ "") && EMAIL_REGEXP e
       && bool_decide (8 ≤ String.length p)%nat
    then [ {[ "email" := e; "password" := p ]} ]
    else [].
Proof.
  intros fg e p.
  pose proof (form_after_inv EMAIL_REGEXP events _
                (formGroup_initial_inv EMAIL_REGEXP)) as Hinv.
  pose proof (form_inv_valid_values fg Hinv) as Hiff. cbn zeta in Hiff.
  fold fg e p in Hinv, Hiff.
  destruct (FormGroup.valid fg) eqn:Hval.
  - destruct (proj1 Hiff eq_refl) as (He & Hre & Hp).
    rewrite (bool_decide_eq_true_2 _ He), Hre, (bool_decide_eq_true_2 _ Hp).
    rewrite (onSubmit_valid loginUser event {| formGroup := fg |} Hval).
    cbn. unfold loginUser_calls. rewrite (form_inv_value fg Hinv). f_equal.
    apply subscribe_onResponse_no_login.
  - rewrite (onSubmit_invalid loginUser event {| formGroup := fg |} Hval).
    destruct (bool_decide (e ≠ "") && EMAIL_REGEXP e
              && bool_decide (8 ≤ String.length p)%nat) eqn:Hall; [| done].
    apply andb_prop in Hall as [Hall Hp]. apply andb_prop in Hall as [He Hre].
    apply bool_decide_eq_true_1 in He, Hp.
    assert (false = true) by (apply Hiff; auto). done.
Qed.

(** X7. For the form the user drives, the button follows the validity of
    the form: each emission of [buttonDisabled$] after the first is the
    negation of the validity at that emission, and the latest emission,
    the first one included, is the negation of the validity of the form as
    it stands. *)
Theorem buttonDisabled_tracks_validity events :
  let initial := formGroup_initial EMAIL_REGEXP in
  let button := buttonDisabled_S (statusChanges EMAIL_REGEXP events initial) in
  (∀ (n : nat) fg,
     emissions EMAIL_REGEXP events initial !! n = Some fg →
     button !! S n = Some (negb (FormGroup.valid fg))) ∧
  last button
  = Some (negb (FormGroup.valid (form_after EMAIL_REGEXP events initial))).
Proof.
  intros initial button. subst initial button.
  assert (Hflip : ∀ fg, form_inv EMAIL_REGEXP fg →
            bool_decide (FormGroup.status fg = INVALID)
            = negb (FormGroup.valid fg)).
  { intros fg Hinv. unfold FormGroup.valid.
    by destruct (form_inv_status EMAIL_REGEXP fg Hinv) as [-> | ->]. }
  split.
  - intros n fg Hn.
    rewrite buttonDisabled_S_lookup. unfold statusChanges.
    rewrite list_lookup_fmap, Hn. cbn. f_equal. apply Hflip.
    pose proof (emissions_inv EMAIL_REGEXP events _
                  (formGroup_initial_inv EMAIL_REGEXP)) as Hall.
    rewrite Forall_lookup in Hall. by apply (Hall n).
  - rewrite <- (Hflip _ (form_after_inv EMAIL_REGEXP events _
                           (formGroup_initial_inv EMAIL_REGEXP))).
    rewrite status_after. unfold buttonDisabled_S, Rx.startWith, Rx.map.
    rewrite last_cons, fmap_last.
    by destruct (last (statusChanges EMAIL_REGEXP events _)).
Qed.

(** X8. Right after the user has typed into the e-mail field, whatever
    happened before, the hint emitted by [emailMessage$] is decided by the
    text typed: "This filed is required" for the empty text, nothing for a
    text that passes the e-mail test, "Wrong email format" otherwise. *)
Theorem emailMessage_after_typing events (v : string) :
  last (emailMessage_S
          (valueChanges EMAIL_REGEXP (events ++ [ input_email v ])
             (formGroup_initial EMAIL_REGEXP)))
  = Some (if bool_decide (v = "") then "This filed is required"
          else if EMAIL_REGEXP v then ""
          else "Wrong email format").
Proof.
  unfold emailMessage_S, valueChanges, Rx.map.
  rewrite emissions_snoc. cbn [emits]. rewrite !fmap_app.
  cbn [fmap list_fmap]. rewrite last_snoc.
  f_equal. cbn [fst snd]. unfold emailMessage. cbn [formGroup].
  rewrite form_step_input_email
    by apply form_after_inv, formGroup_initial_inv.
  cbn [FormControl.errors]. case_bool_decide as Hv.
  - subst v. by rewrite emailValidator_empty.
  - rewrite (emailValidator_nonempty EMAIL_REGEXP v Hv).
    by destruct (EMAIL_REGEXP v).
Qed.

(** X9. Right after the user has typed into the password field, whatever
    happened before, the hint emitted by [passwordMessage$] is decided by
    the text typed: "Password is required" for the empty text, "Password
    should have at least 8 characters" for a shorter text, nothing from 8
    characters on. *)
Theorem passwordMessage_after_typing events (v : string) :
  last (passwordMessage_S
          (valueChanges EMAIL_REGEXP (events ++ [ input_password v ])
             (formGroup_initial EMAIL_REGEXP)))
  = Some (if bool_decide (v = "") then "Password is required"
          else if bool_decide (String.length v < 8)%nat
          then "Password should have at least 8 characters"
          else "").
Proof.
  unfold passwordMessage_S, valueChanges, Rx.map.
  rewrite emissions_snoc. cbn [emits]. rewrite !fmap_app.
  cbn [fmap list_fmap]. rewrite last_snoc.
  f_equal. cbn [fst snd]. unfold passwordMessage. cbn [formGroup].
  rewrite form_step_input_password
    by apply form_after_inv, formGroup_initial_inv.
  cbn [FormControl.errors FormControl.dirty]. case_bool_decide as Hv.
  - subst v. by rewrite passwordValidator_empty.
  - rewrite (passwordValidator_nonempty v Hv). by case_bool_decide.
Qed.

(** X10. As long as the user has not typed into the password field, every
    hint emitted by [passwordMessage$] is empty, although the empty
    password is invalid from the start. *)
Theorem passwordMessage_silent_until_typed events :
  Forall (λ e, ∀ v, e ≠ input_password v) events →
  FormControl.errors
    (FormGroup.password
       (FormGroup.controls (formGroup_initial EMAIL_REGEXP))) ≠ None ∧
  Forall (λ hint, hint = "")
    (passwordMessage_S
       (valueChanges EMAIL_REGEXP events (formGroup_initial EMAIL_REGEXP))).
Proof.
  intros Hev. split; [vm_compute; discriminate |].
  assert (Hgen : ∀ fg,
            FormControl.dirty (FormGroup.password (FormGroup.controls fg))
            = false →
            Forall (λ hint, hint = "")
              (passwordMessage_S (valueChanges EMAIL_REGEXP events fg))).
  { induction Hev as [| e events He Hev IH]; intros fg Hd; [constructor |].
    pose proof (form_step_password_dirty e fg He) as Hd'. rewrite Hd in Hd'.
    unfold passwordMessage_S, valueChanges, Rx.map in *. cbn [emissions].
    destruct (emits e); [| by apply IH].
    rewrite !fmap_cons. constructor; [| by apply IH].
    cbn [fst snd]. unfold passwordMessage. cbn [formGroup]. rewrite Hd'.
    by destruct (FormControl.errors _). }
  by apply Hgen.
Qed.

(** X11. The e-mail hint does not wait for the user to type into the
    e-mail field: as long as that field has not been typed into, every
    hint emitted by [emailMessage$] -- on typing into the password field --
    is "This filed is required". *)
Theorem emailMessage_required_until_typed events :
  Forall (λ e, ∀ v, e ≠ input_email v) events →
  Forall (λ hint, hint = "This filed is required")
    (emailMessage_S
       (valueChanges EMAIL_REGEXP events (formGroup_initial EMAIL_REGEXP))).
Proof.
  intros Hev.
  assert (Hgen : ∀ fg,
            FormControl.errors (FormGroup.email (FormGroup.controls fg))
            = Some {[ "required" := Js.Bool true ]} →
            Forall (λ hint, hint = "This filed is required")
              (emailMessage_S (valueChanges EMAIL_REGEXP events fg))).
  { induction Hev as [| e events He Hev IH]; intros fg Herr; [constructor |].
    pose proof (form_step_email_errors e fg He) as Herr'.
    rewrite Herr in Herr'.
    unfold emailMessage_S, valueChanges, Rx.map in *. cbn [emissions].
    destruct (emits e); [| by apply IH].
    rewrite !fmap_cons. constructor; [| by apply IH].
    cbn [fst snd]. unfold emailMessage. cbn [formGroup]. by rewrite Herr'. }
  apply Hgen. cbn. apply emailValidator_empty.
Qed.

(** X12. For the form the user has driven, a hint on either field means
    the form is not valid: while a hint shows, [onSubmit] does nothing. *)
Theorem hint_implies_invalid events (value : AuthUser) (event : Js.Value) :
  let this :=
    {| formGroup :=
         form_after EMAIL_REGEXP events (formGroup_initial EMAIL_REGEXP) |} in
  emailMessage this value ≠ "" ∨ passwordMessage this value ≠ "" →
  FormGroup.valid (formGroup this) = false ∧
  onSubmit loginUser event this = (tt, this, []).
Proof.
  intros this Hhint.
  pose proof (form_after_inv EMAIL_REGEXP events _
                (formGroup_initial_inv EMAIL_REGEXP)) as Hinv.
  assert (Hval : FormGroup.valid (formGroup this) = false).
  { destruct (FormGroup.valid (formGroup this)) eqn:Hval; [| done].
    apply (form_inv_valid _ Hinv) in Hval as [He Hp].
    unfold emailMessage, passwordMessage in Hhint.
    cbn [formGroup this] in Hhint.
    rewrite He, Hp in Hhint. by destruct Hhint. }
  split; [exact Hval |]. by apply onSubmit_invalid.
Qed.

End UserDriven.

(** ** The further properties at concrete inputs *)

(** Submitting the form of scenario A twice. *)
Lemma onSubmit_each_valid_witness :
  let this := {| formGroup := formGroup_scenario_A sample_EMAIL_REGEXP |} in
  let r :=
    onSubmit_each (service_answering response_token)
      [ Js.Undefined; Js.Null ] this in
  FormGroup.valid (formGroup this) = true ∧
  state_after r = this ∧
  loginUser_calls (trace_of r)
  = replicate 2 (FormGroup.value (formGroup this)).
Proof.
  intros this r.
  assert (Hval : FormGroup.valid (formGroup this) = true)
    by (vm_compute; reflexivity).
  split; [exact Hval |].
  exact (onSubmit_each_valid (service_answering response_token)
           [ Js.Undefined; Js.Null ] this Hval).
Defined.

(** A service that answers with four responses: a failure, a token, an
    empty response and a token again. *)
Lemma onSubmit_handles_each_response_witness :
  let this := {| formGroup := formGroup_scenario_A sample_EMAIL_REGEXP |} in
  let loginUser := λ _ : AuthUser,
    [ response_bad_credentials; response_token; response_empty;
      response_token ] in
  let trace := trace_of (onSubmit loginUser Js.Undefined this) in
  FormGroup.valid (formGroup this) = true ∧
  notifications trace
  = [ ("Login failed", config_login_failed);
      ("Logged in!", config_logged_in);
      ("Logged in!", config_logged_in) ] ∧
  navigations trace = [ "/settings"; "/settings" ].
Proof.
  intros this loginUser trace.
  assert (Hval : FormGroup.valid (formGroup this) = true)
    by (vm_compute; reflexivity).
  split; [exact Hval |].
  exact (onSubmit_handles_each_response loginUser Js.Undefined this Hval).
Defined.

(** The form of scenario A is valid. *)
Lemma form_valid_iff_witness :
  let fg := formGroup_scenario_A sample_EMAIL_REGEXP in
  FormGroup.valid fg = true ∧
  FormGroup.value fg = {[ "email" := "a@b.com"; "password" := "password1" ]}.
Proof.
  intros fg.
  pose proof (form_valid_iff sample_EMAIL_REGEXP
                [ input_email "a@b.com"; input_password "password1" ])
    as [Hiff Hvalue].
  split.
  - apply Hiff. split; [vm_compute; discriminate |].
    split; [vm_compute; reflexivity | vm_compute; lia].
  - etransitivity; [exact Hvalue |]. vm_compute; reflexivity.
Defined.

(** The button while the user types the credentials of scenario A. *)
Lemma buttonDisabled_tracks_validity_witness :
  let events := [ input_email "a@b.com"; input_password "password1" ] in
  let initial := formGroup_initial sample_EMAIL_REGEXP in
  let button :=
    buttonDisabled_S (statusChanges sample_EMAIL_REGEXP events initial) in
  button !! 1
  = Some (negb (FormGroup.valid
                  (form_after sample_EMAIL_REGEXP [ input_email "a@b.com" ]
                     initial))) ∧
  last button
  = Some (negb (FormGroup.valid
                  (form_after sample_EMAIL_REGEXP events initial))).
Proof.
  intros events initial button.
  pose proof (buttonDisabled_tracks_validity sample_EMAIL_REGEXP events)
    as [Heach Hlast].
  split; [| exact Hlast].
  apply (Heach 0). vm_compute; reflexivity.
Defined.

(** The user types an address, leaves the password field, and corrects the
    address: no password hint. *)
Lemma passwordMessage_silent_until_typed_witness :
  let events := [ input_email "a"; blur_password; input_email "a@b.com" ] in
  Forall (λ hint, hint = "")
    (passwordMessage_S
       (valueChanges sample_EMAIL_REGEXP events
          (formGroup_initial sample_EMAIL_REGEXP))).
Proof.
  intros events.
  apply (passwordMessage_silent_until_typed sample_EMAIL_REGEXP events).
  repeat constructor; intros v; discriminate.
Defined.

(** The user types a password and never an address: the e-mail hint asks
    for the address at once. *)
Lemma emailMessage_required_until_typed_witness :
  let events :=
    [ input_password "abc"; blur_email; input_password "password1" ] in
  Forall (λ hint, hint = "This filed is required")
    (emailMessage_S
       (valueChanges sample_EMAIL_REGEXP events
          (formGroup_initial sample_EMAIL_REGEXP))).
Proof.
  intros events.
  apply (emailMessage_required_until_typed sample_EMAIL_REGEXP events).
  repeat constructor; intros v; discriminate.
Defined.

(** A short password typed: the hint shows and submitting does nothing. *)
Lemma hint_implies_invalid_witness :
  let this :=
    {| formGroup :=
         form_after sample_EMAIL_REGEXP [ input_password "abc" ]
           (formGroup_initial sample_EMAIL_REGEXP) |} in
  FormGroup.valid (formGroup this) = false ∧
  onSubmit (service_answering response_token) Js.Undefined this
  = (tt, this, []).
Proof.
  intros this.
  apply (hint_implies_invalid sample_EMAIL_REGEXP
           (service_answering response_token)
           [ input_password "abc" ] ∅ Js.Undefined).
  right. vm_compute. discriminate.
Defined.

(** ** The hints, as the two streams emit them *)

Section Hints.

Variable EMAIL_REGEXP : string → bool.

Implicit Types (fg : FormGroup.t) (events : list FormEvent).
Implicit Types (this : LoginComponent) (value : AuthUser).
Implicit Types (changes : Rx.Observable (LoginComponent * AuthUser)).

(** Each stream maps its function over [valueChanges], emission by
    emission. *)
Lemma emailMessage_S_lookup changes (n : nat) :
  emailMessage_S changes !! n
  = (λ tv, emailMessage tv.1 tv.2) <$> changes !! n.
Proof. apply list_lookup_fmap. Qed.

Lemma passwordMessage_S_lookup changes (n : nat) :
  passwordMessage_S changes !! n
  = (λ tv, passwordMessage tv.1 tv.2) <$> changes !! n.
Proof. apply list_lookup_fmap. Qed.

Lemma valueChanges_lookup events fg (n : nat) :
  valueChanges EMAIL_REGEXP events fg !! n
  = (λ fg', ({| formGroup := fg' |}, FormGroup.value fg'))
      <$> emissions EMAIL_REGEXP events fg !! n.
Proof. apply list_lookup_fmap. Qed.

(** Every emission of the form the user drives keeps the invariant. *)
Lemma emission_inv events (n : nat) fg :
  emissions EMAIL_REGEXP events (formGroup_initial EMAIL_REGEXP) !! n
  = Some fg →
  form_inv EMAIL_REGEXP fg.
Proof.
  intros Hn.
  pose proof (emissions_inv EMAIL_REGEXP events _
                (formGroup_initial_inv EMAIL_REGEXP)) as Hall.
  rewrite Forall_lookup in Hall. by apply (Hall n).
Qed.

(** A password control the user has not typed into is empty.  The property
    holds of the form the component builds and every event keeps it. *)
Lemma form_step_pristine (e : FormEvent) fg :
  form_inv EMAIL_REGEXP fg →
  (FormControl.dirty (FormGroup.password (FormGroup.controls fg)) = false →
   FormControl.value (FormGroup.password (FormGroup.controls fg)) = "") →
  let fg' := form_step EMAIL_REGEXP e fg in
  FormControl.dirty (FormGroup.password (FormGroup.controls fg')) = false →
  FormControl.value (FormGroup.password (FormGroup.controls fg')) = "".
Proof.
  intros Hinv Hp fg'. subst fg'. destruct e as [v | v | |]; try exact Hp.
  rewrite (form_step_input_password EMAIL_REGEXP v fg Hinv). discriminate.
Qed.

Lemma emissions_pristine events fg :
  form_inv EMAIL_REGEXP fg →
  (FormControl.dirty (FormGroup.password (FormGroup.controls fg)) = false →
   FormControl.value (FormGroup.password (FormGroup.controls fg)) = "") →
  Forall
    (λ fg',
       FormControl.dirty (FormGroup.password (FormGroup.controls fg')) = false →
       FormControl.value (FormGroup.password (FormGroup.controls fg')) = "")
    (emissions EMAIL_REGEXP events fg).
Proof.
  revert fg.
  induction events as [| e events IH]; intros fg Hinv Hp; [constructor |].
  cbn [emissions].
  pose proof (form_step_inv EMAIL_REGEXP e fg Hinv) as Hinv'.
  pose proof (form_step_pristine e fg Hinv Hp) as Hp'. cbn zeta in Hp'.
  destruct (emits e); [constructor; [exact Hp' |] |]; by apply IH.
Qed.

(** Without typing into the password field its control stays pristine, and
    the hint stays empty. *)
Lemma passwordMessage_S_pristine events fg :
  FormControl.dirty (FormGroup.password (FormGroup.controls fg)) = false →
  Forall (λ e, ∀ v, e ≠ input_password v) events →
  Forall (λ hint, hint = "")
    (passwordMessage_S (valueChanges EMAIL_REGEXP events fg)).
Proof.
  intros Hd Hev. revert fg Hd.
  induction Hev as [| e events He Hev IH]; intros fg Hd; [constructor |].
  pose proof (form_step_password_dirty EMAIL_REGEXP e fg He) as Hd'.
  rewrite Hd in Hd'.
  unfold passwordMessage_S, valueChanges, Rx.map in *. cbn [emissions].
  destruct (emits e); [| by apply IH].
  rewrite !fmap_cons. constructor; [| by apply IH].
  cbn [fst snd]. unfold passwordMessage. cbn [formGroup]. rewrite Hd'.
  by destruct (FormControl.errors _).
Qed.

(** C6. The hint of the e-mail field, as [emailMessage$] emits it: one hint
    for each emission of [valueChanges].  At an emission where the e-mail
    control holds no error the hint is empty; where its errors carry
    [required] the hint is "This filed is required", whatever else they
    carry.  For the form the user drives: where the e-mail is empty the
    hint is "This filed is required"; where it is not empty and fails the
    e-mail test the hint is "Wrong email format"; where it passes, the hint
    is empty. *)
Theorem emailMessage_S_hint :
  (∀ changes, length (emailMessage_S changes) = length changes) ∧
  (∀ changes (n : nat) this value,
     changes !! n = Some (this, value) →
     let control := FormGroup.email (FormGroup.controls (formGroup this)) in
     (FormControl.errors control = None →
      emailMessage_S changes !! n = Some "") ∧
     (∀ errors : ValidationErrors,
        FormControl.errors control = Some errors →
        Js.ToBoolean (Js.get errors "required") = true →
        emailMessage_S changes !! n = Some "This filed is required")) ∧
  (∀ events (n : nat) fg,
     emissions EMAIL_REGEXP events (formGroup_initial EMAIL_REGEXP) !! n
     = Some fg →
     let v := FormControl.value (FormGroup.email (FormGroup.controls fg)) in
     let hint :=
       emailMessage_S
         (valueChanges EMAIL_REGEXP events (formGroup_initial EMAIL_REGEXP))
         !! n in
     (v = "" → hint = Some "This filed is required") ∧
     (v ≠ "" → EMAIL_REGEXP v = false → hint = Some "Wrong email format") ∧
     (v ≠ "" → EMAIL_REGEXP v = true → hint = Some "")).
Proof.
  split; [intros changes; apply length_fmap |]. split.
  - intros changes n this value Hn control.
    rewrite emailMessage_S_lookup, Hn.
    cbn [fmap option_fmap option_map fst snd]. split.
    + intros He. f_equal. unfold emailMessage. fold control. by rewrite He.
    + intros errors He Hreq. f_equal.
      by apply (emailMessage_required this value errors).
  - intros events n fg Hn v hint. subst hint.
    rewrite emailMessage_S_lookup, valueChanges_lookup, Hn.
    cbn [fmap option_fmap option_map fst snd].
    destruct (emission_inv events n fg Hn) as ([Hv _] & _ & _).
    red in Hv. fold v in Hv. unfold emailMessage. cbn [formGroup].
    repeat split.
    + intros Hempty. rewrite Hv, Hempty, emailValidator_empty. reflexivity.
    + intros Hne Hre.
      rewrite Hv, (emailValidator_nonempty EMAIL_REGEXP v Hne), Hre.
      reflexivity.
    + intros Hne Hre.
      by rewrite Hv, (emailValidator_nonempty EMAIL_REGEXP v Hne), Hre.
Qed.

(** C7. The hint of the password field, as [passwordMessage$] emits it: one
    hint for each emission of [valueChanges].  As long as the user has not
    typed into the password field -- in particular while the user has not
    interacted with it at all -- every hint is empty, although the empty
    password is invalid; more generally the hint is empty at every emission
    where the control is not dirty.  For the form the user drives, where
    the password is not empty and shorter than 8 characters the hint is
    "Password should have at least 8 characters", and where it has been
    typed and is empty the hint is "Password is required".  Wherever the
    errors of a dirty control carry [required] the hint is "Password is
    required", whatever else they carry. *)
Theorem passwordMessage_S_hint :
  (∀ changes, length (passwordMessage_S changes) = length changes) ∧
  (∀ events,
     Forall (λ e, ∀ v, e ≠ input_password v) events →
     Forall (λ hint, hint = "")
       (passwordMessage_S
          (valueChanges EMAIL_REGEXP events
             (formGroup_initial EMAIL_REGEXP)))) ∧
  (∀ changes (n : nat) this value,
     changes !! n = Some (this, value) →
     let control := FormGroup.password (FormGroup.controls (formGroup this)) in
     (FormControl.dirty control = false →
      passwordMessage_S changes !! n = Some "") ∧
     (∀ errors : ValidationErrors,
        FormControl.dirty control = true →
        FormControl.errors control = Some errors →
        Js.ToBoolean (Js.get errors "required") = true →
        passwordMessage_S changes !! n = Some "Password is required")) ∧
  (∀ events (n : nat) fg,
     emissions EMAIL_REGEXP events (formGroup_initial EMAIL_REGEXP) !! n
     = Some fg →
     let control := FormGroup.password (FormGroup.controls fg) in
     let v := FormControl.value control in
     let hint :=
       passwordMessage_S
         (valueChanges EMAIL_REGEXP events (formGroup_initial EMAIL_REGEXP))
         !! n in
     (v ≠ "" → (String.length v < 8)%nat →
      hint = Some "Password should have at least 8 characters") ∧
     (FormControl.dirty control = true → v = "" →
      hint = Some "Password is required")).
Proof.
  split; [intros changes; apply length_fmap |]. split; [| split].
  - intros events Hev. by apply passwordMessage_S_pristine.
  - intros changes n this value Hn control.
    rewrite passwordMessage_S_lookup, Hn.
    cbn [fmap option_fmap option_map fst snd]. split.
    + intros Hd. f_equal. unfold passwordMessage. fold control. rewrite Hd.
      by destruct (FormControl.errors control).
    + intros errors Hd He Hreq. f_equal.
      by apply (passwordMessage_required this value errors).
  - intros events n fg Hn control v hint. subst hint.
    rewrite passwordMessage_S_lookup, valueChanges_lookup, Hn.
    cbn [fmap option_fmap option_map fst snd].
    destruct (emission_inv events n fg Hn) as (_ & [Hv _] & _).
    red in Hv. fold control in Hv. fold v in Hv.
    pose proof (emissions_pristine events _
                  (formGroup_initial_inv EMAIL_REGEXP) (λ _, eq_refl)) as Hall.
    rewrite Forall_lookup in Hall. specialize (Hall n fg Hn). cbn beta in Hall.
    fold control in Hall. fold v in Hall.
    unfold passwordMessage. cbn [formGroup]. fold control. split.
    + intros Hne Hlen.
      assert (Hd : FormControl.dirty control = true).
      { destruct (FormControl.dirty control); [done |]. by destruct Hne; auto. }
      rewrite Hv, (passwordValidator_nonempty v Hne).
      rewrite (bool_decide_eq_true_2 _ Hlen), Hd. reflexivity.
    + intros Hd Hempty.
      rewrite Hv, Hempty, passwordValidator_empty, Hd. reflexivity.
Qed.

End Hints.

(** The e-mail hints while the user types a well-formed address, deletes
    it, and types an address without an at sign. *)
Lemma emailMessage_S_hint_witness :
  let events := [ input_email "a@b.com"; input_email ""; input_email "abc" ] in
  let initial := formGroup_initial sample_EMAIL_REGEXP in
  let hints :=
    emailMessage_S (valueChanges sample_EMAIL_REGEXP events initial) in
  length hints = 3 ∧
  hints !! 0 = Some "" ∧
  hints !! 1 = Some "This filed is required" ∧
  hints !! 2 = Some "Wrong email format".
Proof.
  intros events initial hints.
  destruct (emailMessage_S_hint sample_EMAIL_REGEXP)
    as (Hlength & _ & Hdriven).
  split; [subst hints; rewrite Hlength; vm_compute; reflexivity |].
  split; [| split].
  - assert (Hn : emissions sample_EMAIL_REGEXP events initial !! 0
                 = Some (form_after sample_EMAIL_REGEXP (take 1 events)
                           initial))
      by (vm_compute; reflexivity).
    pose proof (Hdriven events 0 _ Hn) as Hhint. cbv zeta in Hhint.
    destruct Hhint as (_ & _ & Hpass).
    apply Hpass; [vm_compute; discriminate | vm_compute; reflexivity].
  - assert (Hn : emissions sample_EMAIL_REGEXP events initial !! 1
                 = Some (form_after sample_EMAIL_REGEXP (take 2 events)
                           initial))
      by (vm_compute; reflexivity).
    pose proof (Hdriven events 1 _ Hn) as Hhint. cbv zeta in Hhint.
    destruct Hhint as (Hempty & _ & _).
    apply Hempty. vm_compute; reflexivity.
  - assert (Hn : emissions sample_EMAIL_REGEXP events initial !! 2
                 = Some (form_after sample_EMAIL_REGEXP events initial))
      by (vm_compute; reflexivity).
    pose proof (Hdriven events 2 _ Hn) as Hhint. cbv zeta in Hhint.
    destruct Hhint as (_ & Hfail & _).
    apply Hfail; [vm_compute; discriminate | vm_compute; reflexivity].
Defined.

(** The password hints while the user types an address, then "abc" into
    the password field, then deletes it. *)
Lemma passwordMessage_S_hint_witness :
  let before := [ input_email "a"; blur_password ] in
  let events := before ++ [ input_password "abc"; input_password "" ] in
  let initial := formGroup_initial sample_EMAIL_REGEXP in
  let hints :=
    passwordMessage_S (valueChanges sample_EMAIL_REGEXP events initial) in
  Forall (λ hint, hint = "")
    (passwordMessage_S (valueChanges sample_EMAIL_REGEXP before initial)) ∧
  length hints = 3 ∧
  hints !! 0 = Some "" ∧
  hints !! 1 = Some "Password should have at least 8 characters" ∧
  hints !! 2 = Some "Password is required".
Proof.
  intros before events initial hints.
  destruct (passwordMessage_S_hint sample_EMAIL_REGEXP)
    as (Hlength & Hsilent & Hstate & Hdriven).
  split.
  { apply (Hsilent before). repeat constructor; intros v; discriminate. }
  split; [subst hints; rewrite Hlength; vm_compute; reflexivity |].
  split; [| split].
  - assert (Hn : valueChanges sample_EMAIL_REGEXP events initial !! 0
                 = Some ({| formGroup :=
                              form_after sample_EMAIL_REGEXP (take 1 events)
                                initial |},
                         {[ "email" := "a"; "password" := "" ]}))
      by (vm_compute; reflexivity).
    pose proof (Hstate _ 0 _ _ Hn) as Hhint. cbv zeta in Hhint.
    destruct Hhint as (Hpristine & _).
    apply Hpristine. vm_compute; reflexivity.
  - assert (Hn : emissions sample_EMAIL_REGEXP events initial !! 1
                 = Some (form_after sample_EMAIL_REGEXP (take 3 events)
                           initial))
      by (vm_compute; reflexivity).
    pose proof (Hdriven events 1 _ Hn) as Hhint. cbv zeta in Hhint.
    destruct Hhint as (Hshort & _).
    apply Hshort; [vm_compute; discriminate | vm_compute; lia].
  - assert (Hn : emissions sample_EMAIL_REGEXP events initial !! 2
                 = Some (form_after sample_EMAIL_REGEXP events initial))
      by (vm_compute; reflexivity).
    pose proof (Hdriven events 2 _ Hn) as Hhint. cbv zeta in Hhint.
    destruct Hhint as (_ & Hempty).
    apply Hempty; vm_compute; reflexivity.
Defined.
